(** * GraphQLSchemaViewer: the line-oriented SDL scanner

    Shallow embedding of the [useMemo] block of
    [libs/graphql-schema-viewer/src/components/GraphQLSchemaViewer/GraphQLSchemaViewer.tsx]
    (source lines 40-249): the helper [parseOperationsFromType], the
    type-definition pass and the guard on the [schema] prop.

    Strings are [string]s of 8-bit characters read as code points
    0..255 (so U+00A0 is the only non-ASCII white space that can occur).
    [braceCount] is a JavaScript number that only ever moves by one, so
    it is a [Z].  The mutable locals of each [for] loop are gathered in
    a record and one loop iteration is a function on that record. *)

From Stdlib Require Import String Ascii List ZArith Lia Bool.
Import ListNotations.
Local Open Scope string_scope.

(* ================================================================= *)
(** ** JavaScript string primitives used by the scanner *)

Module Js.

(** White space of [String.prototype.trim] and of the regex class
    [\s], restricted to code points below 256. *)
Definition isWhiteSpace (c : ascii) : bool :=
  existsb (N.eqb (N_of_ascii c)) [9; 10; 11; 12; 13; 32; 160]%N.

(** The regex class [\w], that is [[A-Za-z0-9_]]. *)
Definition isWordChar (c : ascii) : bool :=
  let n := N_of_ascii c in
  ((48 <=? n) && (n <=? 57) || (65 <=? n) && (n <=? 90)
   || (n =? 95) || (97 <=? n) && (n <=? 122))%N.

(** Line terminators, which the regex atom [.] refuses. *)
Definition isLineTerminator (c : ascii) : bool :=
  existsb (N.eqb (N_of_ascii c)) [10; 13]%N.

Definition isEmpty (s : string) : bool :=
  match s with EmptyString => true | String _ _ => false end.

Fixpoint trimStart (s : string) : string :=
  match s with
  | EmptyString => EmptyString
  | String c s' => if isWhiteSpace c then trimStart s' else s
  end.

Fixpoint trimEnd (s : string) : string :=
  match s with
  | EmptyString => EmptyString
  | String c s' =>
      let t := trimEnd s' in
      if isEmpty t && isWhiteSpace c then EmptyString else String c t
  end.

(** [s.trim()] *)
Definition trim (s : string) : string := trimEnd (trimStart s).

(** [s.startsWith(p)] *)
Fixpoint startsWith (p s : string) : bool :=
  match p, s with
  | EmptyString, _ => true
  | String a p', String b s' => Ascii.eqb a b && startsWith p' s'
  | String _ _, EmptyString => false
  end.

(** [s.includes(p)] *)
Fixpoint includes (p s : string) : bool :=
  startsWith p s ||
  match s with
  | EmptyString => false
  | String _ s' => includes p s'
  end.

(** [s.endsWith(p)] *)
Fixpoint endsWith (p s : string) : bool :=
  String.eqb p s ||
  match s with
  | EmptyString => false
  | String _ s' => endsWith p s'
  end.

(** The remainder of [s] after the prefix [p], when [s] starts with [p]. *)
Fixpoint dropPrefix (p s : string) : option string :=
  match p, s with
  | EmptyString, _ => Some s
  | String a p', String b s' =>
      if Ascii.eqb a b then dropPrefix p' s' else None
  | String _ _, EmptyString => None
  end.

(** [s.split(sep)] for a one-character separator: the current piece is
    accumulated in [cur]; there is always at least one piece. *)
Fixpoint splitAcc (sep : ascii) (cur : string) (s : string) : list string :=
  match s with
  | EmptyString => [cur]
  | String c s' =>
      if Ascii.eqb c sep then cur :: splitAcc sep EmptyString s'
      else splitAcc sep (cur ++ String c EmptyString) s'
  end.

Definition split (sep : ascii) (s : string) : list string :=
  splitAcc sep EmptyString s.

(** [xs.join(sep)] *)
Fixpoint join (sep : string) (xs : list string) : string :=
  match xs with
  | [] => EmptyString
  | [x] => x
  | x :: rest => x ++ sep ++ join sep rest
  end.

(** [s.replace(/[...]/g, '')] for a character class: every character
    of the class is deleted. *)
Fixpoint removeAll (p : ascii -> bool) (s : string) : string :=
  match s with
  | EmptyString => EmptyString
  | String c s' => if p c then removeAll p s' else String c (removeAll p s')
  end.

(** [v || undefined] for a string [v]: the empty string is falsy. *)
Definition orUndefined (v : string) : option string :=
  if isEmpty v then None else Some v.

(** [v || ''] for a possibly undefined capture. *)
Definition orEmpty (v : option string) : string :=
  match v with
  | Some s => if isEmpty s then EmptyString else s
  | None => EmptyString
  end.

End Js.

(* ================================================================= *)
(** ** A backtracking matcher for the regular expressions of the source

    The matcher is written in continuation-passing style, as the
    ECMAScript specification describes [RegExp] matching: a pattern is
    run on the rest of the input with the continuation that matches
    what follows it, and a failing continuation makes the pattern try
    its next choice.  Every quantifier of the source is applied to a
    single character class, which is all the syntax below offers. *)

Module Regex.

Inductive regex : Type :=
| Lit (s : string)                 (* literal text *)
| Cls (p : ascii -> bool)          (* one character of a class *)
| Star (p : ascii -> bool)         (* [c*], greedy *)
| Plus (p : ascii -> bool)         (* [c+], greedy *)
| LazyPlus (p : ascii -> bool)     (* [c+?] *)
| Seq (r1 r2 : regex)
| Alt (r1 r2 : regex)              (* [r1|r2], left first *)
| Opt (r : regex)                  (* [r?], greedy *)
| Group (i : nat) (r : regex)      (* capturing group number [i] *)
| Eol.                             (* [$] without the [m] flag *)

(** Captures, most recent first. *)
Definition captures := list (nat * string).

(** A match result: the input left after the match, and the captures. *)
Definition result := option (string * captures).
Definition cont := string -> captures -> result.

Fixpoint capture (i : nat) (c : captures) : option string :=
  match c with
  | [] => None
  | (j, s) :: c' => if Nat.eqb i j then Some s else capture i c'
  end.

(** The text consumed between the input [s] and its suffix [s']. *)
Definition consumed (s s' : string) : string :=
  substring 0 (String.length s - String.length s') s.

Fixpoint greedyStar (p : ascii -> bool) (k : cont) (s : string)
    (c : captures) : result :=
  match s with
  | String a s' =>
      if p a then
        match greedyStar p k s' c with
        | Some r => Some r
        | None => k s c
        end
      else k s c
  | EmptyString => k s c
  end.

Fixpoint lazyStar (p : ascii -> bool) (k : cont) (s : string)
    (c : captures) : result :=
  match k s c with
  | Some r => Some r
  | None =>
      match s with
      | String a s' => if p a then lazyStar p k s' c else None
      | EmptyString => None
      end
  end.

Fixpoint run (r : regex) (k : cont) (s : string) (c : captures) : result :=
  match r with
  | Lit l =>
      match Js.dropPrefix l s with
      | Some s' => k s' c
      | None => None
      end
  | Cls p =>
      match s with
      | String a s' => if p a then k s' c else None
      | EmptyString => None
      end
  | Star p => greedyStar p k s c
  | Plus p =>
      match s with
      | String a s' => if p a then greedyStar p k s' c else None
      | EmptyString => None
      end
  | LazyPlus p =>
      match s with
      | String a s' => if p a then lazyStar p k s' c else None
      | EmptyString => None
      end
  | Seq r1 r2 => run r1 (fun s' c' => run r2 k s' c') s c
  | Alt r1 r2 =>
      match run r1 k s c with
      | Some x => Some x
      | None => run r2 k s c
      end
  | Opt r1 =>
      match run r1 k s c with
      | Some x => Some x
      | None => k s c
      end
  | Group i r1 => run r1 (fun s' c' => k s' ((i, consumed s s') :: c')) s c
  | Eol =>
      match s with
      | EmptyString => k s c
      | String _ _ => None
      end
  end.

(** A match that starts at the first character of [s]; this is how a
    pattern that begins with [^] is tried (it can match nowhere else). *)
Definition matchAt (r : regex) (s : string) : result :=
  run r (fun s' c' => Some (s', c')) s [].

(** The leftmost match of [r] in [s]: its start index, the input left
    after it, its captures. *)
Fixpoint search (r : regex) (s : string) : option (nat * string * captures) :=
  match matchAt r s with
  | Some (rest, c) => Some (0, rest, c)
  | None =>
      match s with
      | String _ s' =>
          match search r s' with
          | Some (i, rest, c) => Some (S i, rest, c)
          | None => None
          end
      | EmptyString => None
      end
  end.

(** [s.replace(r, '')] for a pattern without the [g] flag. *)
Definition deleteFirst (r : regex) (s : string) : string :=
  match search r s with
  | Some (i, rest, _) => substring 0 i s ++ rest
  | None => s
  end.

(** [s.matchAll(r)] for a pattern with the [g] flag: after a match the
    search resumes where the match ended, so the [skip] characters it
    consumed are passed over (an empty match advances by one). *)
Fixpoint matchAllFrom (r : regex) (skip : nat) (s : string) : list captures :=
  match skip with
  | S n =>
      match s with
      | String _ s' => matchAllFrom r n s'
      | EmptyString => []
      end
  | O =>
      match matchAt r s with
      | Some (rest, c) =>
          c :: match s with
               | String _ s' =>
                   matchAllFrom r (String.length s - String.length rest - 1) s'
               | EmptyString => []
               end
      | None =>
          match s with
          | String _ s' => matchAllFrom r 0 s'
          | EmptyString => []
          end
      end
  end.

Definition matchAll (r : regex) (s : string) : list captures :=
  matchAllFrom r 0 s.

Definition seq (rs : list regex) : regex :=
  fold_right Seq (Lit EmptyString) rs.

End Regex.

(* ================================================================= *)
(** ** The data model (source lines 19-33) *)

Import Js Regex.

(** The literal types ['query' | 'mutation']. *)
Inductive OperationType : Type := query | mutation.

(** An element of [GraphQLOperation.parameters]:
    [{ name: string; type: string; required: boolean }]. *)
Record GraphQLParameter : Type := {
  param_name : string;
  param_type : string;
  param_required : bool
}.

(** [interface GraphQLOperation]; an optional field that holds
    [undefined] is [None]. *)
Record GraphQLOperation : Type := {
  op_name : string;
  op_type : OperationType;
  op_description : option string;
  op_parameters : option (list GraphQLParameter);
  op_returnType : string;
  op_content : string
}.

(** [interface GraphQLType]; [kind] is the keyword that the header
    pattern captured, kept as the string it is at run time. *)
Record GraphQLType : Type := {
  ty_name : string;
  ty_kind : string;
  ty_description : option string;
  ty_content : string
}.

(** What the [schema] prop can hold at run time: the guard of line 41
    tests both its truthiness and its [typeof]. *)
Inductive JsValue : Type :=
| JsUndefined
| JsNull
| JsBoolean (b : bool)
| JsNumber (n : Z)
| JsObject
| JsString (s : string).

Definition truthy (v : JsValue) : bool :=
  match v with
  | JsUndefined | JsNull => false
  | JsBoolean b => b
  | JsNumber n => negb (n =? 0)%Z
  | JsObject => true
  | JsString s => negb (isEmpty s)
  end.

Definition typeofIsString (v : JsValue) : bool :=
  match v with JsString _ => true | _ => false end.

(* ================================================================= *)
(** ** Characters, literals and patterns of the source *)

Definition dquote : ascii := "034"%char.
Definition newline : ascii := "010"%char.
Definition nl : string := String newline EmptyString.

(** The marker of a block string, three double quotes; the comments
    below write it QQQ when they quote the source. *)
Definition tripleQuote : string :=
  String dquote (String dquote (String dquote EmptyString)).

Definition isChar (a c : ascii) : bool := Ascii.eqb a c.
Definition notChar (a c : ascii) : bool := negb (Ascii.eqb a c).
Definition dot (c : ascii) : bool := negb (isLineTerminator c).

(** The character classes [/[()]/], [/!/] and [/[!,]/] of lines 119,
    127 and 141. *)
Definition isParen (c : ascii) : bool := isChar "(" c || isChar ")" c.
Definition isBang (c : ascii) : bool := isChar "!" c.
Definition isBangOrComma (c : ascii) : bool := isChar "!" c || isChar "," c.

(** [/^\s*(\w+)\s*(\([^)]*\))?\s*:\s*(.+?)(\s*\{|\s*$)/] (line 109) *)
Definition fieldPattern : regex :=
  seq [ Star isWhiteSpace;
        Group 1 (Plus isWordChar);
        Star isWhiteSpace;
        Opt (Group 2 (seq [Lit "("; Star (notChar ")"); Lit ")"]));
        Star isWhiteSpace;
        Lit ":";
        Star isWhiteSpace;
        Group 3 (LazyPlus dot);
        Group 4 (Alt (Seq (Star isWhiteSpace) (Lit "{"))
                     (Seq (Star isWhiteSpace) Eol)) ].

(** [/\s*\{.*$/] (line 115) *)
Definition braceTail : regex :=
  seq [Star isWhiteSpace; Lit "{"; Star dot; Eol].

(** [/(\w+)\s*:\s*([^,]+)/g] (line 120) *)
Definition paramPattern : regex :=
  seq [ Group 1 (Plus isWordChar);
        Star isWhiteSpace;
        Lit ":";
        Star isWhiteSpace;
        Group 2 (Plus (notChar ",")) ].

(** [/^(type|interface|enum|scalar|union|input)\s+(\w+)/] (line 198) *)
Definition typeHeaderPattern : regex :=
  seq [ Group 1 (Alt (Lit "type") (Alt (Lit "interface") (Alt (Lit "enum")
          (Alt (Lit "scalar") (Alt (Lit "union") (Lit "input"))))));
        Plus isWhiteSpace;
        Group 2 (Plus isWordChar) ].

(** [/^(QQQ|#)/] (lines 90 and 191) *)
Definition leadingMarker : regex := Alt (Lit tripleQuote) (Lit "#").

(** [/QQQ$/] (lines 90 and 191) *)
Definition trailingTripleQuote : regex := Seq (Lit tripleQuote) Eol.

(** [s.replace(r, '')] for a pattern [r] that begins with [^]. *)
Definition deleteAtStart (r : regex) (s : string) : string :=
  match matchAt r s with
  | Some (rest, _) => rest
  | None => s
  end.

(** [trimmed.replace(/^(QQQ|#)/, '').replace(/QQQ$/, '').trim()] *)
Definition descriptionText (trimmed : string) : string :=
  trim (deleteFirst trailingTripleQuote (deleteAtStart leadingMarker trimmed)).

(** [trimmed.startsWith('QQQ') || trimmed.startsWith('#')] *)
Definition isDescriptionLine (trimmed : string) : bool :=
  startsWith tripleQuote trimmed || startsWith "#" trimmed.

(** [line.includes('{')] then [braceCount++], [line.includes('}')]
    then [braceCount--] (lines 81-82, 223-224 and 228-229). *)
Definition countOpen (line : string) (n : Z) : Z :=
  if includes "{" line then (n + 1)%Z else n.

Definition countClose (line : string) (n : Z) : Z :=
  if includes "}" line then (n - 1)%Z else n.

(* ================================================================= *)
(** ** [parseOperationsFromType] (source lines 48-166) *)

(** The test of line 70 on the trimmed line. *)
Definition isRootHeader (typeName trimmed : string) : bool :=
  String.eqb trimmed ("type " ++ typeName)
  || startsWith ("type " ++ typeName ++ " ") trimmed
  || startsWith ("type " ++ typeName ++ "{") trimmed.

(** One element of [parameters], from a match of [paramPattern]
    (lines 122-129). *)
Definition parameterOfMatch (m : captures) : GraphQLParameter :=
  let paramName := orEmpty (capture 1 m) in
  let paramType := trim (orEmpty (capture 2 m)) in
  {| param_name := paramName;
     param_type := trim (removeAll isBang paramType);
     param_required := includes "!" paramType |}.

(** Lines 117-131: the parentheses are deleted and every match of
    [paramPattern] gives a parameter. *)
Definition parseParameters (paramsString : string) : list GraphQLParameter :=
  if isEmpty paramsString then []
  else
    let paramsContent := removeAll isParen paramsString in
    map parameterOfMatch (matchAll paramPattern paramsContent).

(** [returnType.replace(/[!,]/g, '').trim()] of line 141 applied to the
    [returnType] of lines 114-115. *)
Definition returnTypeOf (group3 : string) : string :=
  let returnType := trim (deleteFirst braceTail (trim group3)) in
  trim (removeAll isBangOrComma returnType).

(** The object pushed at lines 136-143.  The groups 1 and 3 take part
    in every match of [fieldPattern]; the optional group 2 is read as
    [fieldMatch[2] || '']. *)
Definition operationOfMatch (operationType : OperationType)
    (currentDescription line : string) (fieldMatch : captures)
    : GraphQLOperation :=
  let operationName := orEmpty (capture 1 fieldMatch) in
  let paramsString := orEmpty (capture 2 fieldMatch) in
  let parameters := parseParameters paramsString in
  {| op_name := operationName;
     op_type := operationType;
     op_description := orUndefined (trim currentDescription);
     op_parameters :=
       if (0 <? List.length parameters)%nat then Some parameters else None;
     op_returnType := returnTypeOf (orEmpty (capture 3 fieldMatch));
     op_content := trim line |}.

(** The locals of the loop (lines 49-54). *)
Record OpState : Type := {
  typeOps : list GraphQLOperation;
  inTypeBlock : bool;
  braceCount : Z;
  currentDescription : string;
  descriptionLines : list string;
  inDescription : bool
}.

Definition initialOpState : OpState :=
  {| typeOps := []; inTypeBlock := false; braceCount := 0;
     currentDescription := EmptyString; descriptionLines := [];
     inDescription := false |}.

(** How an iteration ends: it falls through or [continue]s to the next
    line, or it [break]s out of the loop. *)
Inductive Flow : Type := Next | Break.

(** Lines 60-67: an empty line. *)
Definition opEmptyLine (st : OpState) : OpState :=
  if inDescription st then st
  else {| typeOps := typeOps st; inTypeBlock := inTypeBlock st;
          braceCount := braceCount st; currentDescription := EmptyString;
          descriptionLines := []; inDescription := inDescription st |}.

(** Lines 70-78: the header of the root block. *)
Definition opHeaderLine (st : OpState) (line : string) : OpState :=
  {| typeOps := typeOps st; inTypeBlock := true;
     braceCount := countOpen line 0; currentDescription := EmptyString;
     descriptionLines := []; inDescription := false |}.

(** Line 95: a block-string description written on one line. *)
Definition isSingleLineBlockString (trimmed : string) : bool :=
  endsWith tripleQuote trimmed && startsWith tripleQuote trimmed
  && (3 <? String.length trimmed)%nat.

(** Lines 87-99: a description line at positive depth [bc]. *)
Definition opDescriptionLine (st : OpState) (bc : Z) (trimmed : string)
    : OpState :=
  let descText := descriptionText trimmed in
  {| typeOps := typeOps st; inTypeBlock := inTypeBlock st;
     braceCount := bc; currentDescription := currentDescription st;
     descriptionLines :=
       if isEmpty descText then descriptionLines st
       else (descriptionLines st ++ [descText])%list;
     inDescription :=
       if isSingleLineBlockString trimmed then false else true |}.

(** Lines 101-105: a pending description is finalized by the first
    line that is not a description line. *)
Definition opFinalize (st : OpState) (bc : Z) (isDesc : bool) : OpState :=
  if inDescription st && negb isDesc && (0 <? bc)%Z then
    {| typeOps := typeOps st; inTypeBlock := inTypeBlock st;
       braceCount := bc;
       currentDescription := trim (join " " (descriptionLines st));
       descriptionLines := descriptionLines st; inDescription := false |}
  else
    {| typeOps := typeOps st; inTypeBlock := inTypeBlock st;
       braceCount := bc; currentDescription := currentDescription st;
       descriptionLines := descriptionLines st;
       inDescription := inDescription st |}.

(** Lines 107-156: the field on the line, if there is one. *)
Definition opFieldLine (operationType : OperationType) (st : OpState)
    (isDesc : bool) (line trimmed : string) : OpState :=
  if (0 <? braceCount st)%Z && negb isDesc then
    match matchAt fieldPattern trimmed with
    | Some (_, fieldMatch) =>
        {| typeOps :=
             (typeOps st ++
                [operationOfMatch operationType (currentDescription st) line
                   fieldMatch])%list;
           inTypeBlock := inTypeBlock st; braceCount := braceCount st;
           currentDescription := EmptyString; descriptionLines := [];
           inDescription := inDescription st |}
    | None =>
        if negb (isEmpty (currentDescription st))
           && negb (startsWith "#" trimmed)
           && negb (startsWith tripleQuote trimmed)
        then
          {| typeOps := typeOps st; inTypeBlock := inTypeBlock st;
             braceCount := braceCount st; currentDescription := EmptyString;
             descriptionLines := []; inDescription := inDescription st |}
        else st
    end
  else st.

(** Lines 158-161: the block is left when the depth is back to zero on
    a line with a closing brace. *)
Definition opCloseBlock (st : OpState) (trimmed : string) : OpState * Flow :=
  if (braceCount st =? 0)%Z && includes "}" trimmed then
    ({| typeOps := typeOps st; inTypeBlock := false;
        braceCount := braceCount st;
        currentDescription := currentDescription st;
        descriptionLines := descriptionLines st;
        inDescription := inDescription st |}, Break)
  else (st, Next).

(** One iteration of the loop of lines 56-163. *)
Definition opStep (typeName : string) (operationType : OperationType)
    (st : OpState) (line : string) : OpState * Flow :=
  let trimmed := trim line in
  if isEmpty trimmed then (opEmptyLine st, Next)
  else if isRootHeader typeName trimmed then (opHeaderLine st line, Next)
  else if inTypeBlock st then
    let bc := countClose line (countOpen line (braceCount st)) in
    let isDesc := isDescriptionLine trimmed in
    if isDesc && (0 <? bc)%Z then (opDescriptionLine st bc trimmed, Next)
    else
      let st1 := opFinalize st bc isDesc in
      let st2 := opFieldLine operationType st1 isDesc line trimmed in
      opCloseBlock st2 trimmed
  else (st, Next).

(** The loop: the lines are taken in order until one [break]s. *)
Fixpoint opLoop (typeName : string) (operationType : OperationType)
    (lines : list string) (st : OpState) : OpState :=
  match lines with
  | [] => st
  | line :: rest =>
      match opStep typeName operationType st line with
      | (st', Break) => st'
      | (st', Next) => opLoop typeName operationType rest st'
      end
  end.

Definition parseOperationsFromType (lines : list string) (typeName : string)
    (operationType : OperationType) : list GraphQLOperation :=
  typeOps (opLoop typeName operationType lines initialOpState).

(* ================================================================= *)
(** ** The type-definition pass (source lines 176-246) *)

(** The locals of the loop (lines 177-181) and the output [typeDefs].
    [currentType] holds the object under construction, whose [content]
    is only assigned when it is pushed. *)
Record TypeState : Type := {
  typeDefs : list GraphQLType;
  currentType : option GraphQLType;
  tyDescription : string;      (* [currentDescription] *)
  tyBraceCount : Z;            (* [braceCount] *)
  inType : bool;
  typeContent : list string
}.

Definition initialTypeState : TypeState :=
  {| typeDefs := []; currentType := None; tyDescription := EmptyString;
     tyBraceCount := 0; inType := false; typeContent := [] |}.

(** [currentType.content = typeContent.join('\n'); typeDefs.push(currentType)] *)
Definition finalize (t : GraphQLType) (content : list string) : GraphQLType :=
  {| ty_name := ty_name t; ty_kind := ty_kind t;
     ty_description := ty_description t;
     ty_content := join nl content |}.

Definition pushCurrent (st : TypeState) : list GraphQLType :=
  match currentType st with
  | Some t => (typeDefs st ++ [finalize t (typeContent st)])%list
  | None => typeDefs st
  end.

(** The test of lines 196-197. *)
Definition startsWithKeyword (trimmed : string) : bool :=
  startsWith "type " trimmed || startsWith "interface " trimmed
  || startsWith "enum " trimmed || startsWith "scalar " trimmed
  || startsWith "union " trimmed || startsWith "input " trimmed.

(** The test of line 202. *)
Definition isReserved (typeName : string) : bool :=
  String.eqb typeName "Query" || String.eqb typeName "Mutation"
  || String.eqb typeName "Subscription".

(** Lines 198-225: a line that starts with a definition keyword. *)
Definition tyHeaderLine (st : TypeState) (line trimmed : string) : TypeState :=
  match matchAt typeHeaderPattern trimmed with
  | Some (_, m) =>
      let typeName := orEmpty (capture 2 m) in
      if isReserved typeName then st
      else
        {| typeDefs := pushCurrent st;
           currentType :=
             Some {| ty_name := typeName;
                     ty_kind := orEmpty (capture 1 m);
                     ty_description := orUndefined (trim (tyDescription st));
                     ty_content := EmptyString |};
           tyDescription := EmptyString;
           tyBraceCount := countClose line (countOpen line 0);
           inType := true;
           typeContent := [line] |}
  | None => st
  end.

(** Lines 226-237: a line inside the open definition [t]. *)
Definition tyBodyLine (st : TypeState) (t : GraphQLType) (line : string)
    : TypeState :=
  let content := (typeContent st ++ [line])%list in
  let bc := countClose line (countOpen line (tyBraceCount st)) in
  if (bc =? 0)%Z
     && (includes "}" line || String.eqb (ty_kind t) "scalar"
         || String.eqb (ty_kind t) "union")
  then
    {| typeDefs := (typeDefs st ++ [finalize t content])%list;
       currentType := None; tyDescription := tyDescription st;
       tyBraceCount := bc; inType := false; typeContent := [] |}
  else
    {| typeDefs := typeDefs st; currentType := currentType st;
       tyDescription := tyDescription st; tyBraceCount := bc;
       inType := inType st; typeContent := content |}.

(** One iteration of the loop of lines 183-241. *)
Definition tyStep (st : TypeState) (line : string) : TypeState :=
  let trimmed := trim line in
  if isEmpty trimmed then st
  else if isDescriptionLine trimmed && negb (inType st) then
    {| typeDefs := typeDefs st; currentType := currentType st;
       tyDescription := tyDescription st ++ descriptionText trimmed ++ " ";
       tyBraceCount := tyBraceCount st; inType := inType st;
       typeContent := typeContent st |}
  else if startsWithKeyword trimmed then tyHeaderLine st line trimmed
  else
    match inType st, currentType st with
    | true, Some t => tyBodyLine st t line
    | _, _ =>
        {| typeDefs := typeDefs st; currentType := currentType st;
           tyDescription := EmptyString; tyBraceCount := tyBraceCount st;
           inType := inType st; typeContent := typeContent st |}
    end.

(** The loop, then lines 243-246: a definition still open at the end
    of the input is pushed. *)
Definition parseTypes (lines : list string) : list GraphQLType :=
  pushCurrent (fold_left tyStep lines initialTypeState).

(* ================================================================= *)
(** ** The memoized computation (source lines 40-249) *)

Record Extraction : Type := {
  operations : list GraphQLOperation;
  types : list GraphQLType
}.

Definition noExtraction : Extraction := {| operations := []; types := [] |}.

(** The body of the [useMemo] callback on a string. *)
Definition extractFromText (schema : string) : Extraction :=
  let lines := split newline schema in
  let queryOps := parseOperationsFromType lines "Query" query in
  let mutationOps := parseOperationsFromType lines "Mutation" mutation in
  {| operations := (queryOps ++ mutationOps)%list;
     types := parseTypes lines |}.

(** The [useMemo] callback: line 41 returns two empty arrays unless
    [schema] is a non-empty string. *)
Definition extract (schema : JsValue) : Extraction :=
  if negb (truthy schema) || negb (typeofIsString schema) then noExtraction
  else
    match schema with
    | JsString s => extractFromText s
    | _ => noExtraction
    end.

(** A schema written line by line. *)
Definition unlines (ls : list string) : string := join nl ls.


(* ================================================================= *)
(** ** Predicates used in the statements *)

(** A string that does not begin with white space. *)
Definition startsClean (s : string) : bool :=
  match s with
  | EmptyString => true
  | String c _ => negb (isWhiteSpace c)
  end.

(** The one-character string [c]. *)
Definition char (c : ascii) : string := String c EmptyString.

(** An optional text is either absent or non-empty and trimmed. *)
Definition presentable (d : option string) : Prop :=
  match d with
  | None => True
  | Some t => t <> EmptyString /\ trim t = t
  end.


(** [o] is the object that lines 136-143 build from the field
    declared on [line]. *)
Definition fieldOperation (operationType : OperationType) (line : string)
    (o : GraphQLOperation) : Prop :=
  exists cd rest m,
    matchAt fieldPattern (trim line) = Some (rest, m)
    /\ o = operationOfMatch operationType cd line m.

(** [t] has the name, kind and description that lines 200-217 give to
    the definition whose header is [line]. *)
Definition definitionHeader (line : string) (t : GraphQLType) : Prop :=
  exists rest m d,
    matchAt typeHeaderPattern (trim line) = Some (rest, m)
    /\ isReserved (orEmpty (capture 2 m)) = false
    /\ ty_name t = orEmpty (capture 2 m)
    /\ ty_kind t = orEmpty (capture 1 m)
    /\ ty_description t = orUndefined (trim d).

(** The invariant of the type-definition loop for a property [Q] of
    definitions: it holds of the definitions already pushed and of the
    one under construction. *)
Definition typeStateInv (Q : GraphQLType -> Prop) (st : TypeState) : Prop :=
  Forall Q (typeDefs st)
  /\ forall t, currentType st = Some t -> Q t.

(** The examples of the specification. *)
Definition widgetSchema : string :=
  unlines [ "type Query {";
            "  " ++ tripleQuote ++ "Fetches a widget by id" ++ tripleQuote;
            "  widget(id: ID!): Widget";
            "}" ].

Definition widgetOperation (description : option string) : GraphQLOperation :=
  {| op_name := "widget"; op_type := query; op_description := description;
     op_parameters :=
       Some [ {| param_name := "id"; param_type := "ID";
                 param_required := true |} ];
     op_returnType := "Widget";
     op_content := "widget(id: ID!): Widget" |}.

Definition fooOperation : GraphQLOperation :=
  {| op_name := "foo"; op_type := query; op_description := None;
     op_parameters := None; op_returnType := "Bar";
     op_content := "foo: Bar" |}.

Definition barListSchema : string :=
  unlines ["type Query {"; "  foo: [Bar!]!"; "}"].

(** [widgetSchema] with an empty line between the description and the
    field. *)
Definition widgetSchemaWithGap : string :=
  unlines [ "type Query {";
            "  " ++ tripleQuote ++ "Fetches a widget by id" ++ tripleQuote;
            EmptyString;
            "  widget(id: ID!): Widget";
            "}" ].

(** A scalar followed by the root block. *)
Definition scalarThenQuery : string :=
  unlines ["scalar Date"; "type Query {"; "  foo: Bar"; "}"].

(** White space that stays on its line: indentation, trailing blanks,
    a carriage return. *)
Fixpoint isPadding (s : string) : bool :=
  match s with
  | EmptyString => true
  | String c s' =>
      isWhiteSpace c && negb (Ascii.eqb c newline) && isPadding s'
  end.

(** What the operation pass reads of a line: its trimmed text and
    whether it holds an opening and a closing brace. *)
Definition sameView (l l' : string) : Prop :=
  trim l = trim l'
  /\ includes "{" l = includes "{" l'
  /\ includes "}" l = includes "}" l'.

(** The number of occurrences of [c] in [s]. *)
Fixpoint countChar (c : ascii) (s : string) : nat :=
  match s with
  | EmptyString => 0
  | String a s' => (if Ascii.eqb a c then 1 else 0) + countChar c s'
  end.

(** A line that opens a definition in the type pass: it starts with a
    keyword, the header pattern matches and the name is not reserved
    (the tests of lines 196-204). *)
Definition opensDefinition (trimmed : string) : bool :=
  startsWithKeyword trimmed
  && match matchAt typeHeaderPattern trimmed with
     | Some (_, m) => negb (isReserved (orEmpty (capture 2 m)))
     | None => false
     end.

(** A line that opens neither the root block [typeName] nor a
    definition. *)
Definition opensNothing (typeName line : string) : Prop :=
  isRootHeader typeName (trim line) = false
  /\ opensDefinition (trim line) = false.

(** The examples of the specification and two root blocks that are
    followed by another block. *)
Definition subscriptionOneLine : string := "type Subscription { ping: Boolean }".

Definition subscriptionBlock : list string :=
  ["type Subscription {"; "  ping: Boolean"; "}"].

Definition queryResultBlock : list string :=
  ["type QueryResult {"; "  ok: Boolean"; "}"].

Definition pingOperation : GraphQLOperation :=
  {| op_name := "ping"; op_type := query; op_description := None;
     op_parameters := None; op_returnType := "Boolean";
     op_content := "ping: Boolean" |}.

Definition okOperation : GraphQLOperation :=
  {| op_name := "ok"; op_type := query; op_description := None;
     op_parameters := None; op_returnType := "Boolean";
     op_content := "ok: Boolean" |}.

(** Whether [s] begins with a character of the class [\w]. *)
Definition startsWithWordChar (s : string) : bool :=
  match s with
  | EmptyString => false
  | String c _ => isWordChar c
  end.

(* ================================================================= *)
(** ** The component around the scanner (source lines 36-38, 251-300) *)

(** [op.type === 'query'] and [op.type === 'mutation'], the
    predicates of the two [filter]s of lines 251-252. *)
Definition hasOperationType (operationType : OperationType)
    (op : GraphQLOperation) : bool :=
  match op_type op, operationType with
  | query, query => true
  | mutation, mutation => true
  | _, _ => false
  end.

Definition queries (e : Extraction) : list GraphQLOperation :=
  filter (hasOperationType query) (operations e).

Definition mutations (e : Extraction) : list GraphQLOperation :=
  filter (hasOperationType mutation) (operations e).

(** A JavaScript [Set<string>]: its elements in insertion order,
    without duplicates. *)
Module JsSet.

Definition t : Type := list string.

Definition empty : t := [].

(** [s.has(x)] *)
Definition has (s : t) (x : string) : bool := existsb (String.eqb x) s.

(** [s.add(x)]: a new element goes last, a present one stays where
    it is. *)
Definition add (s : t) (x : string) : t :=
  if has s x then s else (s ++ [x])%list.

(** [s.delete(x)] *)
Definition delete (s : t) (x : string) : t :=
  filter (fun y => negb (String.eqb x y)) s.

End JsSet.

(** The three [useState] cells of lines 36-38. *)
Record ViewState : Type := {
  expandedOperations : JsSet.t;
  expandedSections : JsSet.t;
  copiedEndpoint : option string
}.

Definition initialViewState : ViewState :=
  {| expandedOperations := JsSet.empty; expandedSections := JsSet.empty;
     copiedEndpoint := None |}.

(** The body shared by [toggleOperation] and [toggleSection]
    (lines 255-260 and 265-270): the set is copied, then the name is
    deleted if it is there and added if it is not. *)
Definition toggle (expanded : JsSet.t) (name : string) : JsSet.t :=
  let newExpanded := expanded in
  if JsSet.has newExpanded name then JsSet.delete newExpanded name
  else JsSet.add newExpanded name.

(** [toggleOperation] (lines 254-262): the state of the next render. *)
Definition toggleOperation (st : ViewState) (operationName : string)
    : ViewState :=
  {| expandedOperations := toggle (expandedOperations st) operationName;
     expandedSections := expandedSections st;
     copiedEndpoint := copiedEndpoint st |}.

(** [toggleSection] (lines 264-272). *)
Definition toggleSection (st : ViewState) (sectionName : string)
    : ViewState :=
  {| expandedOperations := expandedOperations st;
     expandedSections := toggle (expandedSections st) sectionName;
     copiedEndpoint := copiedEndpoint st |}.

(** The template literals of lines 658, 878 and 1098, which name an
    entry in [expandedOperations]: the prefix is [query], [mutation]
    or [type]. *)
Definition expansionKey (prefix name : string) : string :=
  prefix ++ "-" ++ name.

Definition expansionPrefixes : list string := ["query"; "mutation"; "type"].

(** The result of [table[key] || fallback] on an object literal whose
    values are non-empty strings: an own value, the fallback, or a
    member that the literal inherits from [Object.prototype] (which is
    truthy and is returned as it is). *)
Inductive JsLookup : Type :=
| Text (v : string)
| Inherited (key : string).

Definition objectPrototypeKeys : list string :=
  [ "constructor"; "toString"; "toLocaleString"; "valueOf";
    "hasOwnProperty"; "isPrototypeOf"; "propertyIsEnumerable";
    "__proto__"; "__defineGetter__"; "__defineSetter__";
    "__lookupGetter__"; "__lookupSetter__" ].

Fixpoint ownProperty (table : list (string * string)) (key : string)
    : option string :=
  match table with
  | [] => None
  | (k, v) :: rest => if String.eqb key k then Some v else ownProperty rest key
  end.

Definition lookupOr (table : list (string * string)) (key fallback : string)
    : JsLookup :=
  match ownProperty table key with
  | Some v => Text (if isEmpty v then fallback else v)
  | None =>
      if existsb (String.eqb key) objectPrototypeKeys then Inherited key
      else Text fallback
  end.

(** [getTypeColor] (lines 274-286). *)
Definition colors : list (string * string) :=
  [ ("query", "#0066cc"); ("mutation", "#d73a49"); ("type", "#0066cc");
    ("interface", "#6f42c1"); ("enum", "#22863a"); ("scalar", "#6a737d");
    ("union", "#d73a49"); ("input", "#005cc5") ].

Definition getTypeColor (type : string) : JsLookup :=
  lookupOr colors type "#24292e".

(** [getTypeIcon] (lines 288-300). *)
Definition icons : list (string * string) :=
  [ ("query", "Q"); ("mutation", "M"); ("type", "T"); ("interface", "I");
    ("enum", "E"); ("scalar", "S"); ("union", "U"); ("input", "IN") ].

Definition getTypeIcon (type : string) : JsLookup :=
  lookupOr icons type "?".

(* ================================================================= *)
(** ** Further predicates used in the statements *)

(** Every character of [s] is in the class [p]. *)
Fixpoint allChars (p : ascii -> bool) (s : string) : bool :=
  match s with
  | EmptyString => true
  | String c s' => p c && allChars p s'
  end.

(** A non-empty run of characters of the class [\w]. *)
Definition isIdentifier (s : string) : bool :=
  negb (isEmpty s) && allChars isWordChar s.

(** The six definition keywords. *)
Definition typeKinds : list string :=
  ["type"; "interface"; "enum"; "scalar"; "union"; "input"].

(** The numbers of the capturing groups of a pattern. *)
Fixpoint groups (r : regex) : list nat :=
  match r with
  | Seq r1 r2 | Alt r1 r2 => (groups r1 ++ groups r2)%list
  | Opt r1 => groups r1
  | Group i r1 => i :: groups r1
  | _ => []
  end.

(** [c'] is [c] with bindings of the groups [gs] put in front. *)
Definition extendsWith (gs : list nat) (c c' : captures) : Prop :=
  exists new, c' = (new ++ c)%list /\ Forall (fun b => In (fst b) gs) new.

(** [xs] is [ys] with some elements left out, the order kept. *)
Inductive Subseq {A : Type} : list A -> list A -> Prop :=
| Subseq_nil : Subseq [] []
| Subseq_skip xs y ys : Subseq xs ys -> Subseq xs (y :: ys)
| Subseq_take x xs ys : Subseq xs ys -> Subseq (x :: xs) (x :: ys).

(** Whether the loop of the operation pass leaves by [break] within
    [lines]. *)
Fixpoint opStops (typeName : string) (operationType : OperationType)
    (lines : list string) (st : OpState) : bool :=
  match lines with
  | [] => false
  | line :: rest =>
      match opStep typeName operationType st line with
      | (_, Break) => true
      | (st', Next) => opStops typeName operationType rest st'
      end
  end.

(** A [#] comment line that holds no brace. *)
Definition isHashComment (line : string) : bool :=
  startsWith "#" (trim line)
  && negb (includes "{" line) && negb (includes "}" line).

(** The texts that lines 90-93 push for description lines [ls], in
    order: an empty line and an empty text give nothing. *)
Fixpoint pendingTexts (ls : list string) : list string :=
  match ls with
  | [] => []
  | l :: rest =>
      ((if isEmpty (trim l) then []
        else if isEmpty (descriptionText (trim l)) then []
             else [descriptionText (trim l)])
       ++ pendingTexts rest)%list
  end.

(** What line 191 appends to the description buffer of the type pass
    for description lines [ls], in order: an empty line gives nothing,
    every other line its text and a space. *)
Fixpoint bufferedDescription (ls : list string) : string :=
  match ls with
  | [] => EmptyString
  | l :: rest =>
      (if isEmpty (trim l) then EmptyString
       else descriptionText (trim l) ++ " ")
      ++ bufferedDescription rest
  end.

(** The content [lines'] of a definition [t] is made of lines of the
    input read so far, [seen], in their order: first the header of [t],
    then lines that are not empty. *)
Definition contentFrom (seen : list string) (t : GraphQLType)
    (lines' : list string) : Prop :=
  exists header more,
    lines' = header :: more
    /\ definitionHeader header t
    /\ Subseq lines' seen
    /\ Forall (fun l => isEmpty (trim l) = false) more.

(** The invariant of the type-definition loop on contents. *)
Definition contentInv (seen : list string) (st : TypeState) : Prop :=
  Forall (fun t => exists lines',
            ty_content t = join nl lines' /\ contentFrom seen t lines')
         (typeDefs st)
  /\ forall t, currentType st = Some t ->
               contentFrom seen t (typeContent st).

(** The lines that are not empty. *)
Definition nonBlank (ls : list string) : list string :=
  filter (fun l => negb (isEmpty (trim l))) ls.

(** The operations of the fields on lines [ls], none with a
    description: a line on which the field pattern fails gives
    nothing. *)
Definition fieldOperations (operationType : OperationType)
    (ls : list string) : list GraphQLOperation :=
  flat_map (fun l =>
              match matchAt fieldPattern (trim l) with
              | Some (_, m) =>
                  [operationOfMatch operationType EmptyString l m]
              | None => []
              end) ls.

(** A line that does not pass the header test of the root block
    [typeName], holds no brace and is no description line. *)
Definition isPlainLine (typeName line : string) : Prop :=
  isRootHeader typeName (trim line) = false
  /\ includes "{" line = false /\ includes "}" line = false
  /\ isDescriptionLine (trim line) = false.

(** A line [core] with white space put before and after it. *)
Definition padded (l : string * string * string) : string :=
  let '(before, core, after) := l in before ++ core ++ after.

Definition core (l : string * string * string) : string :=
  let '(_, c, _) := l in c.
(* ================================================================= *)
(** ** Facts about the string primitives *)

Module JsFacts.

Lemma isEmpty_true (s : string) : isEmpty s = true <-> s = EmptyString.
Proof. destruct s; simpl; split; congruence. Qed.

Lemma isEmpty_false (s : string) : isEmpty s = false <-> s <> EmptyString.
Proof. destruct s; simpl; split; congruence. Qed.

Lemma isEmpty_append (a b : string) :
  isEmpty (a ++ b) = isEmpty a && isEmpty b.
Proof. destruct a; reflexivity. Qed.

Lemma append_empty_r (s : string) : s ++ EmptyString = s.
Proof. induction s as [|c s IH]; simpl; [reflexivity | now rewrite IH]. Qed.

Lemma append_assoc (a b c : string) : (a ++ b) ++ c = a ++ (b ++ c).
Proof. induction a as [|x a IH]; simpl; [reflexivity | now rewrite IH]. Qed.

(** *** [trim] *)

Lemma trimStart_startsClean (s : string) : startsClean (trimStart s) = true.
Proof.
  induction s as [|c s IH]; simpl; [reflexivity|].
  destruct (isWhiteSpace c) eqn:W; [exact IH | simpl; now rewrite W].
Qed.

Lemma trimStart_clean (s : string) : startsClean s = true -> trimStart s = s.
Proof.
  destruct s as [|c s]; simpl; [reflexivity|].
  destruct (isWhiteSpace c); [discriminate | reflexivity].
Qed.

Lemma trimEnd_startsClean (s : string) :
  startsClean s = true -> startsClean (trimEnd s) = true.
Proof.
  destruct s as [|c s]; simpl; [reflexivity|].
  intros W. apply negb_true_iff in W. rewrite W, andb_false_r.
  simpl. now rewrite W.
Qed.

Lemma trimEnd_idem (s : string) : trimEnd (trimEnd s) = trimEnd s.
Proof.
  induction s as [|c s IH]; simpl; [reflexivity|].
  destruct (isEmpty (trimEnd s) && isWhiteSpace c) eqn:E; [reflexivity|].
  simpl. rewrite IH, E. reflexivity.
Qed.

Lemma trim_idem (s : string) : trim (trim s) = trim s.
Proof.
  unfold trim.
  rewrite (trimStart_clean (trimEnd (trimStart s))).
  - apply trimEnd_idem.
  - apply trimEnd_startsClean, trimStart_startsClean.
Qed.

(** *** [includes] for a one-character needle *)

Lemma includes_char_cons (c a : ascii) (s : string) :
  includes (char c) (String a s) = Ascii.eqb c a || includes (char c) s.
Proof. simpl. now rewrite andb_true_r. Qed.

Lemma includes_char_empty (c : ascii) : includes (char c) EmptyString = false.
Proof. reflexivity. Qed.

Lemma includes_char_append (c : ascii) (a b : string) :
  includes (char c) (a ++ b) = includes (char c) a || includes (char c) b.
Proof.
  induction a as [|x a IH].
  - reflexivity.
  - change (String x a ++ b) with (String x (a ++ b)).
    rewrite !includes_char_cons, IH. now rewrite orb_assoc.
Qed.

Lemma eqb_whitespace (c a : ascii) :
  isWhiteSpace c = false -> isWhiteSpace a = true -> Ascii.eqb c a = false.
Proof.
  intros Hc Ha. destruct (Ascii.eqb c a) eqn:E; [|reflexivity].
  apply Ascii.eqb_eq in E. congruence.
Qed.

Lemma includes_char_trimStart (c : ascii) (s : string) :
  isWhiteSpace c = false ->
  includes (char c) (trimStart s) = includes (char c) s.
Proof.
  intros Hc. induction s as [|a s IH]; [reflexivity|].
  cbn [trimStart]. destruct (isWhiteSpace a) eqn:W; [|reflexivity].
  rewrite includes_char_cons, (eqb_whitespace c a Hc W). exact IH.
Qed.

Lemma includes_char_trimEnd (c : ascii) (s : string) :
  isWhiteSpace c = false ->
  includes (char c) (trimEnd s) = includes (char c) s.
Proof.
  intros Hc. induction s as [|a s IH]; [reflexivity|].
  cbn [trimEnd]. rewrite includes_char_cons.
  destruct (isEmpty (trimEnd s) && isWhiteSpace a) eqn:E.
  - apply andb_true_iff in E. destruct E as [E W].
    apply isEmpty_true in E. rewrite E in IH.
    rewrite <- IH, (eqb_whitespace c a Hc W). reflexivity.
  - rewrite includes_char_cons, IH. reflexivity.
Qed.

Lemma includes_char_trim (c : ascii) (s : string) :
  isWhiteSpace c = false -> includes (char c) (trim s) = includes (char c) s.
Proof.
  intros Hc. unfold trim.
  now rewrite includes_char_trimEnd, includes_char_trimStart.
Qed.

Lemma includes_char_removeAll (p : ascii -> bool) (c : ascii) (s : string) :
  p c = true -> includes (char c) (removeAll p s) = false.
Proof.
  intros Hp. induction s as [|a s IH]; [reflexivity|].
  cbn [removeAll]. destruct (p a) eqn:Pa; [exact IH|].
  rewrite includes_char_cons, IH, orb_false_r.
  destruct (Ascii.eqb c a) eqn:E; [|reflexivity].
  apply Ascii.eqb_eq in E. congruence.
Qed.

(** A character outside the class survives the deletion. *)
Lemma includes_char_removeAll_other (p : ascii -> bool) (c : ascii)
    (s : string) :
  p c = false -> includes (char c) (removeAll p s) = includes (char c) s.
Proof.
  intros Hp. induction s as [|a s IH]; [reflexivity|].
  cbn [removeAll]. rewrite includes_char_cons.
  destruct (p a) eqn:Pa.
  - rewrite IH. destruct (Ascii.eqb c a) eqn:E; [|reflexivity].
    apply Ascii.eqb_eq in E. congruence.
  - now rewrite includes_char_cons, IH.
Qed.

(** *** [v || undefined] *)

Lemma orUndefined_trim_presentable (s : string) :
  presentable (orUndefined (trim s)).
Proof.
  unfold orUndefined. destruct (isEmpty (trim s)) eqn:E; simpl; [exact I|].
  split; [now apply isEmpty_false | apply trim_idem].
Qed.

End JsFacts.

(* ================================================================= *)
(** ** The patterns on examples *)

Example trim_example :
  trim (String "009" "  foo: Bar " ++ String "013" EmptyString) = "foo: Bar".
Proof. reflexivity. Qed.

Example split_example :
  split newline (unlines ["a"; EmptyString; "b "]) = ["a"; EmptyString; "b "]
  /\ split newline ("a" ++ nl) = ["a"; EmptyString].
Proof. split; reflexivity. Qed.

(** The field pattern: the argument list is optional, the return type
    is taken lazily up to an opening brace or the end of the line. *)
Example fieldPattern_example :
  matchAt fieldPattern "widget(id: ID!): Widget"
  = Some (EmptyString,
          [(4, EmptyString); (3, "Widget"); (2, "(id: ID!)"); (1, "widget")])
  /\ matchAt fieldPattern "foo : [Bar!]!  {"
     = Some (EmptyString, [(4, "  {"); (3, "[Bar!]!"); (1, "foo")])
  /\ matchAt fieldPattern "}" = None
  /\ matchAt fieldPattern "type QueryResult {" = None.
Proof. repeat split. Qed.

Example paramPattern_example :
  matchAll paramPattern "id: ID!, names : [String!], n:Int"
  = [ [(2, "ID!"); (1, "id")];
      [(2, "[String!]"); (1, "names")];
      [(2, "Int"); (1, "n")] ].
Proof. reflexivity. Qed.

Example braceTail_example :
  deleteFirst braceTail "Bar  { x }" = "Bar"
  /\ deleteFirst braceTail "[Bar!]!" = "[Bar!]!".
Proof. split; reflexivity. Qed.

Example typeHeaderPattern_example :
  matchAt typeHeaderPattern "interface Node {"
  = Some (" {", [(2, "Node"); (1, "interface")])
  /\ matchAt typeHeaderPattern "input  NewWidget{"
     = Some ("{", [(2, "NewWidget"); (1, "input")])
  /\ matchAt typeHeaderPattern "type {" = None.
Proof. repeat split. Qed.

Example descriptionText_example :
  descriptionText (tripleQuote ++ " Fetches a widget " ++ tripleQuote)
  = "Fetches a widget"
  /\ descriptionText "# a comment" = "a comment"
  /\ descriptionText tripleQuote = EmptyString.
Proof. repeat split. Qed.

(* ================================================================= *)
(** ** The operation pass: where every [Operation] comes from *)

Section OperationPass.

Variable typeName : string.
Variable operationType : OperationType.

Lemma typeOps_opEmptyLine st : typeOps (opEmptyLine st) = typeOps st.
Proof. unfold opEmptyLine. now destruct (inDescription st). Qed.

Lemma typeOps_opFinalize st bc isDesc :
  typeOps (opFinalize st bc isDesc) = typeOps st.
Proof.
  unfold opFinalize.
  now destruct (inDescription st && negb isDesc && (0 <? bc)%Z).
Qed.

Lemma typeOps_opCloseBlock st trimmed :
  typeOps (fst (opCloseBlock st trimmed)) = typeOps st.
Proof.
  unfold opCloseBlock.
  now destruct ((braceCount st =? 0)%Z && includes "}" trimmed).
Qed.

(** A line adds at most one operation, and only the one built from its
    own field. *)
Lemma opFieldLine_ops st isDesc line :
  typeOps (opFieldLine operationType st isDesc line (trim line)) = typeOps st
  \/ exists o, fieldOperation operationType line o
       /\ typeOps (opFieldLine operationType st isDesc line (trim line))
          = (typeOps st ++ [o])%list.
Proof.
  unfold opFieldLine.
  destruct ((0 <? braceCount st)%Z && negb isDesc); [|now left].
  destruct (matchAt fieldPattern (trim line)) as [[rest m]|] eqn:M.
  - right. eexists. split; [|reflexivity].
    exists (currentDescription st), rest, m. now split.
  - left.
    now destruct (negb (isEmpty (currentDescription st))
                  && negb (startsWith "#" (trim line))
                  && negb (startsWith tripleQuote (trim line))).
Qed.

Lemma opStep_ops st line :
  typeOps (fst (opStep typeName operationType st line)) = typeOps st
  \/ exists o, fieldOperation operationType line o
       /\ typeOps (fst (opStep typeName operationType st line))
          = (typeOps st ++ [o])%list.
Proof.
  unfold opStep.
  destruct (isEmpty (trim line)); [left; apply typeOps_opEmptyLine|].
  destruct (isRootHeader typeName (trim line)); [now left|].
  destruct (inTypeBlock st); [|now left].
  set (bc := countClose line (countOpen line (braceCount st))).
  destruct (isDescriptionLine (trim line) && (0 <? bc)%Z); [now left|].
  rewrite typeOps_opCloseBlock.
  destruct (opFieldLine_ops (opFinalize st bc (isDescriptionLine (trim line)))
              (isDescriptionLine (trim line)) line) as [E | [o [Ho E]]].
  - left. now rewrite E, typeOps_opFinalize.
  - right. exists o. split; [exact Ho|]. now rewrite E, typeOps_opFinalize.
Qed.

(** Every operation that the loop adds satisfies any property that the
    fields of the scanned lines have. *)
Lemma opLoop_ops (Q : GraphQLOperation -> Prop) (lines : list string) :
  forall st,
    (forall line o, In line lines -> fieldOperation operationType line o -> Q o) ->
    Forall Q (typeOps st) ->
    Forall Q (typeOps (opLoop typeName operationType lines st)).
Proof.
  induction lines as [|line rest IH]; intros st HQ Hst; [exact Hst|].
  cbn [opLoop].
  assert (Hstep : Forall Q (typeOps (fst (opStep typeName operationType st line)))).
  { destruct (opStep_ops st line) as [E | [o [Ho E]]]; rewrite E.
    - exact Hst.
    - apply Forall_app. split; [exact Hst|].
      constructor; [|constructor]. apply (HQ line); [now left | exact Ho]. }
  destruct (opStep typeName operationType st line) as [st' [|]].
  - apply IH; [|exact Hstep]. intros l o Hl. apply HQ. now right.
  - exact Hstep.
Qed.

Lemma parseOperationsFromType_ops (Q : GraphQLOperation -> Prop)
    (lines : list string) :
  (forall line o, In line lines -> fieldOperation operationType line o -> Q o) ->
  Forall Q (parseOperationsFromType lines typeName operationType).
Proof.
  intros HQ. unfold parseOperationsFromType.
  apply opLoop_ops; [exact HQ | constructor].
Qed.

End OperationPass.

(** Every extracted operation was built from the field of a line of
    the schema, in the [Query] pass or in the [Mutation] pass. *)
Lemma operations_from_fields (Q : GraphQLOperation -> Prop) (schema : JsValue) :
  (forall s line ot o,
      schema = JsString s -> In line (split newline s) ->
      fieldOperation ot line o -> Q o) ->
  Forall Q (operations (extract schema)).
Proof.
  intros HQ. unfold extract.
  destruct (negb (truthy schema) || negb (typeofIsString schema));
    [constructor|].
  destruct schema; try constructor.
  unfold extractFromText. cbn [operations].
  apply Forall_app. split; apply parseOperationsFromType_ops;
    intros line o Hl Ho; eapply HQ; eauto.
Qed.

(* ================================================================= *)
(** ** The type-definition pass: where every [TypeDefinition] comes from *)

Section TypePass.

Variable Q : GraphQLType -> Prop.
Hypothesis Q_finalize : forall t content, Q t -> Q (finalize t content).

Lemma pushCurrent_inv st : typeStateInv Q st -> Forall Q (pushCurrent st).
Proof.
  intros [Hd Hc]. unfold pushCurrent.
  destruct (currentType st) as [t|]; [|exact Hd].
  apply Forall_app. split; [exact Hd|].
  constructor; [|constructor]. apply Q_finalize. now apply Hc.
Qed.

Lemma tyHeaderLine_inv st line :
  (forall t, definitionHeader line t -> Q t) ->
  typeStateInv Q st -> typeStateInv Q (tyHeaderLine st line (trim line)).
Proof.
  intros HQ Hst. unfold tyHeaderLine.
  destruct (matchAt typeHeaderPattern (trim line)) as [[rest m]|] eqn:M;
    [|exact Hst].
  destruct (isReserved (orEmpty (capture 2 m))) eqn:R; [exact Hst|].
  split; cbn [typeDefs currentType].
  - now apply pushCurrent_inv.
  - intros t [= <-]. apply HQ.
    exists rest, m, (tyDescription st). now repeat split.
Qed.

Lemma tyBodyLine_inv st t line :
  currentType st = Some t ->
  typeStateInv Q st -> typeStateInv Q (tyBodyLine st t line).
Proof.
  intros Ht [Hd Hc]. unfold tyBodyLine.
  match goal with |- context [if ?b then _ else _] => destruct b end;
    split; cbn [typeDefs currentType].
  - apply Forall_app. split; [exact Hd|].
    constructor; [|constructor]. apply Q_finalize. now apply Hc.
  - discriminate.
  - exact Hd.
  - exact Hc.
Qed.

Lemma tyStep_inv st line :
  (forall t, definitionHeader line t -> Q t) ->
  typeStateInv Q st -> typeStateInv Q (tyStep st line).
Proof.
  intros HQ Hst. unfold tyStep.
  destruct (isEmpty (trim line)); [exact Hst|].
  destruct (isDescriptionLine (trim line) && negb (inType st));
    [exact Hst|].
  destruct (startsWithKeyword (trim line)); [now apply tyHeaderLine_inv|].
  destruct (inType st); [|exact Hst].
  destruct (currentType st) as [t|] eqn:Ht.
  - now apply tyBodyLine_inv.
  - destruct Hst as [Hd _]. split; cbn [typeDefs currentType];
      [exact Hd | discriminate].
Qed.

Lemma tyLoop_inv (lines : list string) :
  forall st,
    (forall line t, In line lines -> definitionHeader line t -> Q t) ->
    typeStateInv Q st -> typeStateInv Q (fold_left tyStep lines st).
Proof.
  induction lines as [|line rest IH]; intros st HQ Hst; [exact Hst|].
  cbn [fold_left]. apply IH.
  - intros l t Hl. apply HQ. now right.
  - apply tyStep_inv; [|exact Hst]. intros t. apply HQ. now left.
Qed.

Lemma parseTypes_inv (lines : list string) :
  (forall line t, In line lines -> definitionHeader line t -> Q t) ->
  Forall Q (parseTypes lines).
Proof.
  intros HQ. unfold parseTypes. apply pushCurrent_inv, tyLoop_inv.
  - exact HQ.
  - split; [constructor | discriminate].
Qed.

End TypePass.

(** Every extracted definition has the name, kind and description of
    the header of a line of the schema. *)
Lemma types_from_headers (Q : GraphQLType -> Prop) (schema : JsValue) :
  (forall t content, Q t -> Q (finalize t content)) ->
  (forall s line t,
      schema = JsString s -> In line (split newline s) ->
      definitionHeader line t -> Q t) ->
  Forall Q (types (extract schema)).
Proof.
  intros Hf HQ. unfold extract.
  destruct (negb (truthy schema) || negb (typeofIsString schema));
    [constructor|].
  destruct schema; try constructor.
  unfold extractFromText. cbn [types].
  apply parseTypes_inv; [exact Hf|].
  intros line t Hl Ht. eapply HQ; eauto.
Qed.

(* ================================================================= *)
(** ** The guard on the [schema] prop *)

(** C6: when [schema] is empty, null-like (falsy) or not a string, the
    computation returns two empty lists.  It cannot raise: [extract] is
    a total function, and for these inputs it returns before any line
    is scanned. *)
Theorem extract_guard (schema : JsValue) :
  truthy schema = false \/ typeofIsString schema = false ->
  extract schema = noExtraction
  /\ operations (extract schema) = [] /\ types (extract schema) = [].
Proof.
  intros H.
  assert (E : extract schema = noExtraction).
  { unfold extract. destruct H as [H | H]; rewrite H; simpl.
    - reflexivity.
    - now rewrite orb_true_r. }
  rewrite E. now repeat split.
Qed.

Lemma extract_guard_witness :
  extract (JsString EmptyString) = noExtraction
  /\ extract JsNull = noExtraction
  /\ extract JsUndefined = noExtraction
  /\ extract (JsNumber 42) = noExtraction
  /\ extract JsObject = noExtraction.
Proof.
  split; [|split; [|split; [|split]]].
  - apply (extract_guard (JsString EmptyString)). left. reflexivity.
  - apply (extract_guard JsNull). left. reflexivity.
  - apply (extract_guard JsUndefined). right. reflexivity.
  - apply (extract_guard (JsNumber 42)). right. reflexivity.
  - apply (extract_guard JsObject). right. reflexivity.
Defined.

(** The guard is the only way to an early return: a non-empty string
    is scanned. *)
Lemma extract_text (s : string) :
  s <> EmptyString -> extract (JsString s) = extractFromText s.
Proof.
  intros H. unfold extract. cbn [truthy typeofIsString].
  apply JsFacts.isEmpty_false in H. now rewrite H.
Qed.

(* ================================================================= *)
(** ** Descriptions *)

(** C9: every [Operation] and every [TypeDefinition] of the output
    either has no description or has one that is non-empty and
    trimmed; the empty string is never a description. *)
Theorem descriptions_absent_or_nonempty (schema : JsValue) :
  Forall (fun o => presentable (op_description o))
         (operations (extract schema))
  /\ Forall (fun t => presentable (ty_description t))
            (types (extract schema)).
Proof.
  split.
  - apply operations_from_fields.
    intros s line ot o _ _ (cd & rest & m & _ & ->).
    apply JsFacts.orUndefined_trim_presentable.
  - apply types_from_headers.
    + intros t content H. exact H.
    + intros s line t _ _ (rest & m & d & _ & _ & _ & _ & ->).
      apply JsFacts.orUndefined_trim_presentable.
Qed.

(** A description that is present: a [#] comment above a field and
    above a definition. *)
Example description_present :
  map op_description
    (operations (extract (JsString (unlines
       ["type Query {"; "  # All the widgets "; "  widgets: [Widget]"; "}"]))))
  = [Some "All the widgets"]
  /\ map ty_description
       (types (extract (JsString (unlines
          ["#  A color"; "enum Color {"; "  RED"; "}"]))))
     = [Some "A color"].
Proof. split; vm_compute; reflexivity. Qed.

(* ================================================================= *)
(** ** Arguments and return types *)



(** C8, the claim as stated fails: a field declared to return
    [[Bar!]!] gets the return type [[Bar]], not [Bar]; the list
    brackets are not removed. *)
Lemma returnType_keeps_list_brackets :
  map op_returnType (operations (extract (JsString barListSchema)))
    = ["[Bar]"]
  /\ map op_returnType (operations (extract (JsString barListSchema)))
     <> ["Bar"].
Proof. split; vm_compute; [reflexivity | discriminate]. Qed.

(** C8, amended: the return type of every extracted operation is the
    third capture of the field pattern on the operation's line, trimmed
    and cut at a brace, with every [!] and every [,] deleted, and
    trimmed: it holds no [!] and no [,], and every other character that
    is not white space (a list bracket, say) is in it exactly when it
    is in the declared type.  A field declared to return [[Bar!]!] has
    the return type [[Bar]]. *)
Theorem returnType_without_bang_and_comma :
  (forall schema o,
      In o (operations (extract schema)) ->
      exists rest m declared,
        matchAt fieldPattern (op_content o) = Some (rest, m)
        /\ declared = deleteFirst braceTail (trim (orEmpty (capture 3 m)))
        /\ op_returnType o = trim (removeAll isBangOrComma (trim declared))
        /\ includes "!" (op_returnType o) = false
        /\ includes "," (op_returnType o) = false
        /\ trim (op_returnType o) = op_returnType o
        /\ (forall c, isWhiteSpace c = false -> isBangOrComma c = false ->
            includes (char c) (op_returnType o) = includes (char c) declared))
  /\ map op_returnType (operations (extract (JsString barListSchema)))
     = ["[Bar]"].
Proof.
  split; [|vm_compute; reflexivity].
  intros schema o Ho.
  pose proof (operations_from_fields
    (fun o => exists rest m declared,
        matchAt fieldPattern (op_content o) = Some (rest, m)
        /\ declared = deleteFirst braceTail (trim (orEmpty (capture 3 m)))
        /\ op_returnType o = trim (removeAll isBangOrComma (trim declared))
        /\ includes "!" (op_returnType o) = false
        /\ includes "," (op_returnType o) = false
        /\ trim (op_returnType o) = op_returnType o
        /\ (forall c, isWhiteSpace c = false -> isBangOrComma c = false ->
            includes (char c) (op_returnType o) = includes (char c) declared))
    schema) as F.
  rewrite Forall_forall in F. apply F; [|exact Ho]. clear.
  intros s line ot o _ _ (cd & rest & m & M & ->).
  exists rest, m, (deleteFirst braceTail (trim (orEmpty (capture 3 m)))).
  cbn [op_content op_returnType operationOfMatch]. unfold returnTypeOf.
  split; [exact M|]. split; [reflexivity|]. split; [reflexivity|].
  split; [|split; [|split]].
  - rewrite (JsFacts.includes_char_trim "!") by reflexivity.
    now apply (JsFacts.includes_char_removeAll isBangOrComma "!").
  - rewrite (JsFacts.includes_char_trim ",") by reflexivity.
    now apply (JsFacts.includes_char_removeAll isBangOrComma ",").
  - apply JsFacts.trim_idem.
  - intros c Hw Hc.
    rewrite JsFacts.includes_char_trim by exact Hw.
    rewrite JsFacts.includes_char_removeAll_other by exact Hc.
    now apply JsFacts.includes_char_trim.
Qed.

Lemma returnType_without_bang_and_comma_witness :
  exists o,
    op_content o = "foo: [Bar!]!"
    /\ includes "!" (op_returnType o) = false
    /\ includes "[" (op_returnType o) = true.
Proof.
  pose (o := {| op_name := "foo"; op_type := query; op_description := None;
                op_parameters := None; op_returnType := "[Bar]";
                op_content := "foo: [Bar!]!" |}).
  destruct (proj1 returnType_without_bang_and_comma
              (JsString barListSchema) o)
    as (rest & m & declared & _ & _ & _ & Hbang & _).
  - vm_compute. left. reflexivity.
  - exists o. split; [reflexivity | split; [exact Hbang | reflexivity]].
Defined.

(* ================================================================= *)
(** ** Block-string descriptions written on one line *)

(** C1, at the example of the specification: the description written
    on one line directly above the field [widget] is not attached, the
    operation has no description (the claim says it carries the text
    [Fetches a widget by id]).  With an empty line in between the
    operation has no description either, as the claim says. *)
Theorem single_line_description_not_attached :
  operations (extract (JsString widgetSchema)) = [widgetOperation None]
  /\ operations (extract (JsString widgetSchemaWithGap))
     = [widgetOperation None].
Proof. split; vm_compute; reflexivity. Qed.

(** What the claim expects is what a [#] comment gets. *)
Example hash_description_attached :
  operations (extract (JsString (unlines
    [ "type Query {"; "  # Fetches a widget by id";
      "  widget(id: ID!): Widget"; "}" ])))
  = [widgetOperation (Some "Fetches a widget by id")].
Proof. vm_compute. reflexivity. Qed.

Section SingleLineDescription.

Variable typeName : string.
Variable operationType : OperationType.

(** The one-line block string ends the description on its own line
    (line 96) before line 103 could copy [descriptionLines] to
    [currentDescription]: it leaves [currentDescription] as it was. *)
Lemma opStep_single_line_description st line :
  inTypeBlock st = true ->
  isEmpty (trim line) = false ->
  isRootHeader typeName (trim line) = false ->
  isSingleLineBlockString (trim line) = true ->
  (0 <? countClose line (countOpen line (braceCount st)))%Z = true ->
  let st' := fst (opStep typeName operationType st line) in
  currentDescription st' = currentDescription st
  /\ inDescription st' = false
  /\ inTypeBlock st' = true
  /\ typeOps st' = typeOps st
  /\ snd (opStep typeName operationType st line) = Next.
Proof.
  intros Hin He Hh Hs Hd. unfold opStep.
  rewrite He, Hh, Hin, Hd.
  assert (Hq : isDescriptionLine (trim line) = true).
  { unfold isSingleLineBlockString in Hs. unfold isDescriptionLine.
    apply andb_true_iff in Hs. destruct Hs as [Hs _].
    apply andb_true_iff in Hs. destruct Hs as [_ Hs]. now rewrite Hs. }
  rewrite Hq. cbn [andb fst snd].
  unfold opDescriptionLine.
  cbn [currentDescription inDescription inTypeBlock typeOps].
  rewrite Hs.
  now repeat split.
Qed.

(** Hence the line after it, whatever it is, adds no operation with a
    description when none was pending before. *)
Lemma field_after_single_line_description st line next :
  inTypeBlock st = true ->
  currentDescription st = EmptyString ->
  isEmpty (trim line) = false ->
  isRootHeader typeName (trim line) = false ->
  isSingleLineBlockString (trim line) = true ->
  (0 <? countClose line (countOpen line (braceCount st)))%Z = true ->
  let st1 := fst (opStep typeName operationType st line) in
  let st2 := fst (opStep typeName operationType st1 next) in
  typeOps st2 = typeOps st
  \/ exists o, typeOps st2 = (typeOps st ++ [o])%list
       /\ op_description o = None.
Proof.
  intros Hin Hcd He Hh Hs Hd st1 st2.
  destruct (opStep_single_line_description st line Hin He Hh Hs Hd)
    as (Hcd1 & Hd1 & Hin1 & Hops1 & _).
  fold st1 in Hcd1, Hd1, Hin1, Hops1. rewrite Hcd in Hcd1.
  subst st2. rewrite <- Hops1. unfold opStep.
  destruct (isEmpty (trim next));
    [left; apply typeOps_opEmptyLine|].
  destruct (isRootHeader typeName (trim next)); [now left|].
  rewrite Hin1.
  set (bc := countClose next (countOpen next (braceCount st1))).
  destruct (isDescriptionLine (trim next) && (0 <? bc)%Z); [now left|].
  rewrite typeOps_opCloseBlock.
  unfold opFinalize. rewrite Hd1. cbn [andb].
  unfold opFieldLine. cbn [braceCount currentDescription typeOps].
  destruct ((0 <? bc)%Z && negb (isDescriptionLine (trim next)));
    [|now left].
  destruct (matchAt fieldPattern (trim next)) as [[rest m]|].
  - right. eexists. split; [reflexivity|].
    cbn [op_description operationOfMatch]. now rewrite Hcd1.
  - left. rewrite Hcd1. reflexivity.
Qed.

End SingleLineDescription.

(* ================================================================= *)
(** ** Lines, padding and [split] *)

Module LineFacts.
Import JsFacts.

Lemma splitAcc_line (sep : ascii) (a b : string) :
  forall cur,
    includes (char sep) a = false ->
    splitAcc sep cur (a ++ String sep b)
    = (cur ++ a) :: splitAcc sep EmptyString b.
Proof.
  induction a as [|x a IH]; intros cur Ha.
  - cbn [append splitAcc]. rewrite Ascii.eqb_refl.
    now rewrite append_empty_r.
  - rewrite includes_char_cons in Ha. apply orb_false_iff in Ha.
    destruct Ha as [Hx Ha].
    change (String x a ++ String sep b) with (String x (a ++ String sep b)).
    cbn [splitAcc]. rewrite Ascii.eqb_sym, Hx.
    rewrite IH by exact Ha. now rewrite append_assoc.
Qed.

Lemma splitAcc_last (sep : ascii) (a : string) :
  forall cur,
    includes (char sep) a = false -> splitAcc sep cur a = [cur ++ a].
Proof.
  induction a as [|x a IH]; intros cur Ha.
  - cbn [splitAcc]. now rewrite append_empty_r.
  - rewrite includes_char_cons in Ha. apply orb_false_iff in Ha.
    destruct Ha as [Hx Ha].
    cbn [splitAcc]. rewrite Ascii.eqb_sym, Hx.
    rewrite IH by exact Ha. now rewrite append_assoc.
Qed.

Lemma split_line (a b : string) :
  includes nl a = false ->
  split newline (a ++ nl ++ b) = a :: split newline b.
Proof. intros Ha. unfold split. now rewrite (splitAcc_line newline a b). Qed.

Lemma split_last (a : string) :
  includes nl a = false -> split newline a = [a].
Proof. intros Ha. unfold split. now rewrite (splitAcc_last newline a). Qed.

(** No piece of a split holds the separator. *)
Lemma splitAcc_pieces (sep : ascii) (s : string) :
  forall cur,
    includes (char sep) cur = false ->
    Forall (fun l => includes (char sep) l = false) (splitAcc sep cur s).
Proof.
  induction s as [|x s IH]; intros cur Hc; cbn [splitAcc].
  - now constructor.
  - destruct (Ascii.eqb x sep) eqn:E.
    + constructor; [exact Hc | now apply IH].
    + apply IH. rewrite includes_char_append, Hc.
      rewrite includes_char_cons, Ascii.eqb_sym, E. reflexivity.
Qed.

Lemma split_pieces (s : string) :
  Forall (fun l => includes nl l = false) (split newline s).
Proof. now apply (splitAcc_pieces newline). Qed.

(** *** Padding *)

Lemma isPadding_cons (c : ascii) (p : string) :
  isPadding (String c p) = true ->
  isWhiteSpace c = true /\ Ascii.eqb c newline = false /\ isPadding p = true.
Proof.
  cbn [isPadding]. intros H.
  apply andb_true_iff in H. destruct H as [H Hp].
  apply andb_true_iff in H. destruct H as [Hw Hn].
  apply negb_true_iff in Hn. now repeat split.
Qed.

Lemma includes_char_padding (c : ascii) (p : string) :
  isWhiteSpace c = false -> isPadding p = true ->
  includes (char c) p = false.
Proof.
  intros Hc. induction p as [|a p IH]; intros Hp; [reflexivity|].
  apply isPadding_cons in Hp. destruct Hp as (Hw & _ & Hp).
  now rewrite includes_char_cons, (eqb_whitespace c a Hc Hw), IH.
Qed.

Lemma includes_newline_padding (p : string) :
  isPadding p = true -> includes nl p = false.
Proof.
  induction p as [|a p IH]; intros Hp; [reflexivity|].
  apply isPadding_cons in Hp. destruct Hp as (_ & Hn & Hp).
  change nl with (char newline).
  rewrite includes_char_cons, Ascii.eqb_sym, Hn. now apply IH.
Qed.

Lemma trimStart_padding (p s : string) :
  isPadding p = true -> trimStart (p ++ s) = trimStart s.
Proof.
  induction p as [|a p IH]; intros Hp; [reflexivity|].
  apply isPadding_cons in Hp. destruct Hp as (Hw & _ & Hp).
  change (String a p ++ s) with (String a (p ++ s)).
  cbn [trimStart]. rewrite Hw. now apply IH.
Qed.

Lemma trimEnd_padding_only (q : string) :
  isPadding q = true -> trimEnd q = EmptyString.
Proof.
  induction q as [|a q IH]; intros Hq; [reflexivity|].
  apply isPadding_cons in Hq. destruct Hq as (Hw & _ & Hq).
  cbn [trimEnd]. now rewrite (IH Hq), Hw.
Qed.

Lemma trimEnd_padding (s q : string) :
  isPadding q = true -> trimEnd (s ++ q) = trimEnd s.
Proof.
  intros Hq. induction s as [|a s IH].
  - now apply trimEnd_padding_only.
  - change (String a s ++ q) with (String a (s ++ q)).
    cbn [trimEnd]. now rewrite IH.
Qed.

Lemma trim_padding_end (s q : string) :
  isPadding q = true -> trim (s ++ q) = trim s.
Proof.
  intros Hq. unfold trim. induction s as [|a s IH].
  - cbn [append]. rewrite <- (append_empty_r q).
    rewrite trimStart_padding by exact Hq. reflexivity.
  - change (String a s ++ q) with (String a (s ++ q)).
    cbn [trimStart]. destruct (isWhiteSpace a); [exact IH|].
    change (String a (s ++ q)) with (String a s ++ q).
    now apply trimEnd_padding.
Qed.

(** A line reads the same with padding around it. *)
Lemma sameView_padding (p core q : string) :
  isPadding p = true -> isPadding q = true ->
  sameView (p ++ core ++ q) core.
Proof.
  intros Hp Hq. unfold sameView. split; [|split].
  - unfold trim at 1. rewrite trimStart_padding by exact Hp.
    now apply trim_padding_end.
  - change "{" with (char "{").
    rewrite !includes_char_append.
    rewrite (includes_char_padding "{" p), (includes_char_padding "{" q);
      try reflexivity; try assumption.
    now rewrite orb_false_r.
  - change "}" with (char "}").
    rewrite !includes_char_append.
    rewrite (includes_char_padding "}" p), (includes_char_padding "}" q);
      try reflexivity; try assumption.
    now rewrite orb_false_r.
Qed.

Lemma includes_newline_padded (p core q : string) :
  isPadding p = true -> isPadding q = true ->
  includes nl core = false ->
  includes nl (p ++ core ++ q) = false.
Proof.
  intros Hp Hq Hc. change nl with (char newline) in *.
  rewrite !includes_char_append, Hc.
  change (char newline) with nl.
  now rewrite !includes_newline_padding.
Qed.

End LineFacts.

(** The operation pass reads a line only through its view. *)
Lemma opStep_sameView typeName operationType st l l' :
  sameView l l' ->
  opStep typeName operationType st l = opStep typeName operationType st l'.
Proof.
  intros (Ht & Ho & Hc).
  unfold opStep, opHeaderLine, opFieldLine, operationOfMatch,
    countOpen, countClose.
  now rewrite Ht, Ho, Hc.
Qed.

Lemma opLoop_sameView typeName operationType ls ls' :
  Forall2 sameView ls ls' ->
  forall st,
    opLoop typeName operationType ls st
    = opLoop typeName operationType ls' st.
Proof.
  induction 1 as [|l l' ls ls' Hl _ IH]; intros st; [reflexivity|].
  cbn [opLoop]. rewrite (opStep_sameView _ _ st l l' Hl).
  destruct (opStep typeName operationType st l') as [st' [|]];
    [apply IH | reflexivity].
Qed.

(* ================================================================= *)
(** ** A single field in the [Query] block *)

(** C2, the claim as stated fails: in the one-line form, where the
    header, the field and the closing brace share a line, the header
    line is consumed as a header (line 77) and no operation is
    extracted. *)
Lemma one_line_root_block_has_no_operation :
  operations (extract (JsString "type Query { foo: Bar }")) = []
  /\ operations (extract (JsString "type Query { foo: Bar }"))
     <> [fooOperation].
Proof. split; vm_compute; [reflexivity | discriminate]. Qed.

(** C2, amended: when the header [type Query {], the field [foo: Bar]
    and the closing brace are each on a line of their own, with any
    indentation and trailing white space (a carriage return included),
    the operation list is exactly one entry with name [foo], kind
    [query], return type [Bar], no parameters (and no description). *)
Theorem single_field_on_its_own_line (p1 p2 p3 p4 p5 p6 : string) :
  isPadding p1 = true -> isPadding p2 = true -> isPadding p3 = true ->
  isPadding p4 = true -> isPadding p5 = true -> isPadding p6 = true ->
  operations (extract (JsString (unlines
    [ p1 ++ "type Query {" ++ p2;
      p3 ++ "foo: Bar" ++ p4;
      p5 ++ "}" ++ p6 ])))
  = [fooOperation].
Proof.
  intros H1 H2 H3 H4 H5 H6.
  rewrite extract_text.
  2:{ apply JsFacts.isEmpty_false. unfold unlines. cbn [join].
      rewrite !JsFacts.isEmpty_append. cbn [isEmpty append].
      now rewrite !andb_false_r. }
  unfold extractFromText, unlines. cbn [join operations].
  rewrite !LineFacts.split_line, LineFacts.split_last
    by (now apply LineFacts.includes_newline_padded).
  assert (V : Forall2 sameView
                [ p1 ++ "type Query {" ++ p2; p3 ++ "foo: Bar" ++ p4;
                  p5 ++ "}" ++ p6 ]
                [ "type Query {"; "foo: Bar"; "}" ]).
  { repeat constructor; now apply LineFacts.sameView_padding. }
  unfold parseOperationsFromType.
  rewrite !(opLoop_sameView _ _ _ _ V).
  vm_compute. reflexivity.
Qed.

Lemma single_field_on_its_own_line_witness :
  operations (extract (JsString (unlines
    [ "type Query {"; "  foo: Bar"; "}" ])))
  = [fooOperation].
Proof.
  apply (single_field_on_its_own_line EmptyString EmptyString "  "
           EmptyString EmptyString EmptyString); reflexivity.
Defined.

(* ================================================================= *)
(** ** The brace depth of the operation pass *)

Section BraceDepth.

Variable typeName : string.
Variable operationType : OperationType.

Lemma includes_char_count (c : ascii) (s : string) :
  includes (char c) s = (0 <? countChar c s)%nat.
Proof.
  induction s as [|a s IH]; [reflexivity|].
  rewrite JsFacts.includes_char_cons, IH. cbn [countChar].
  rewrite Ascii.eqb_sym. now destruct (Ascii.eqb a c).
Qed.

Lemma b2z_includes_char (c : ascii) (s : string) :
  Z.b2z (includes (char c) s) = Z.of_nat (Nat.min 1 (countChar c s)).
Proof.
  rewrite includes_char_count.
  destruct (countChar c s) as [|n]; [reflexivity|].
  now destruct n.
Qed.

Lemma countOpen_b2z line n :
  countOpen line n = (n + Z.b2z (includes "{" line))%Z.
Proof. unfold countOpen. destruct (includes "{" line); simpl; lia. Qed.

Lemma countClose_b2z line n :
  countClose line n = (n - Z.b2z (includes "}" line))%Z.
Proof. unfold countClose. destruct (includes "}" line); simpl; lia. Qed.

Lemma braceCount_opFinalize st bc isDesc :
  braceCount (opFinalize st bc isDesc) = bc.
Proof.
  unfold opFinalize.
  now destruct (inDescription st && negb isDesc && (0 <? bc)%Z).
Qed.

Lemma braceCount_opFieldLine st isDesc line trimmed :
  braceCount (opFieldLine operationType st isDesc line trimmed)
  = braceCount st.
Proof.
  unfold opFieldLine.
  destruct ((0 <? braceCount st)%Z && negb isDesc); [|reflexivity].
  destruct (matchAt fieldPattern trimmed) as [[rest m]|]; [reflexivity|].
  now destruct (negb (isEmpty (currentDescription st))
                && negb (startsWith "#" trimmed)
                && negb (startsWith tripleQuote trimmed)).
Qed.

Lemma braceCount_opCloseBlock st trimmed :
  braceCount (fst (opCloseBlock st trimmed)) = braceCount st.
Proof.
  unfold opCloseBlock.
  now destruct ((braceCount st =? 0)%Z && includes "}" trimmed).
Qed.

(** The depth after a line inside the block. *)
Lemma opStep_braceCount st line :
  inTypeBlock st = true ->
  isEmpty (trim line) = false ->
  isRootHeader typeName (trim line) = false ->
  braceCount (fst (opStep typeName operationType st line))
  = countClose line (countOpen line (braceCount st)).
Proof.
  intros Hin He Hh. unfold opStep. rewrite He, Hh, Hin.
  set (bc := countClose line (countOpen line (braceCount st))).
  destruct (isDescriptionLine (trim line) && (0 <? bc)%Z); [reflexivity|].
  now rewrite braceCount_opCloseBlock, braceCount_opFieldLine,
    braceCount_opFinalize.
Qed.

End BraceDepth.

(** C3, the claim as stated fails: inside the [Query] block at depth
    1, a line with two opening braces and no closing brace brings the
    depth to 2, not to 1 + 2 - 0 = 3. *)
Lemma brace_depth_not_by_count :
  let st := fst (opStep "Query" query initialOpState "type Query {") in
  let line := "  a: A {{" in
  inTypeBlock st = true
  /\ braceCount st = 1%Z
  /\ countChar "{" line = 2 /\ countChar "}" line = 0
  /\ braceCount (fst (opStep "Query" query st line)) = 2%Z
  /\ braceCount (fst (opStep "Query" query st line))
     <> (braceCount st + Z.of_nat (countChar "{" line)
         - Z.of_nat (countChar "}" line))%Z.
Proof. vm_compute. repeat split; discriminate. Qed.

(** The difference shows in the output: after the line with two
    opening braces, the second closing brace already ends the block,
    and the field [b] below it is not extracted. *)
Example second_brace_on_a_line_is_not_counted :
  map op_name (operations (extract (JsString (unlines
    [ "type Query {"; "  a: A {{"; "  }"; "  }"; "  b: B"; "}" ]))))
  = ["a"].
Proof. vm_compute. reflexivity. Qed.

(** An empty line holds no brace. *)
Lemma empty_line_has_no_brace (c : ascii) (line : string) :
  isWhiteSpace c = false -> isEmpty (trim line) = true ->
  includes (char c) line = false.
Proof.
  intros Hc He. rewrite <- (JsFacts.includes_char_trim c line Hc).
  apply JsFacts.isEmpty_true in He. now rewrite He.
Qed.

(** C3, amended: on a line inside the root block that is not a header
    of the block, the depth changes by one for the presence of an
    opening brace and by minus one for the presence of a closing
    brace, however many there are: with [n] opening and [m] closing
    braces on the line, it changes by [min 1 n - min 1 m]. *)
Theorem brace_depth_by_presence (typeName : string)
    (operationType : OperationType) (st : OpState) (line : string) :
  inTypeBlock st = true ->
  isRootHeader typeName (trim line) = false ->
  braceCount (fst (opStep typeName operationType st line))
  = (braceCount st + Z.b2z (includes "{" line)
     - Z.b2z (includes "}" line))%Z
  /\ braceCount (fst (opStep typeName operationType st line))
     = (braceCount st + Z.of_nat (Nat.min 1 (countChar "{" line))
        - Z.of_nat (Nat.min 1 (countChar "}" line)))%Z.
Proof.
  intros Hin Hh.
  assert (E : braceCount (fst (opStep typeName operationType st line))
              = (braceCount st + Z.b2z (includes "{" line)
                 - Z.b2z (includes "}" line))%Z).
  { destruct (isEmpty (trim line)) eqn:He.
    - change "{" with (char "{"). change "}" with (char "}").
      rewrite !empty_line_has_no_brace by (reflexivity || exact He).
      unfold opStep. rewrite He. cbn [fst]. unfold opEmptyLine.
      destruct (inDescription st); cbn [braceCount Z.b2z]; lia.
    - rewrite (opStep_braceCount typeName operationType st line Hin He Hh).
      now rewrite countClose_b2z, countOpen_b2z. }
  split; [exact E|]. rewrite E.
  change "{" with (char "{"). change "}" with (char "}").
  now rewrite !b2z_includes_char.
Qed.

Lemma brace_depth_by_presence_witness :
  let st := fst (opStep "Query" query initialOpState "type Query {") in
  braceCount (fst (opStep "Query" query st "  a: A {{"))
  = (braceCount st + 1 - 0)%Z.
Proof.
  intros st.
  apply (proj1 (brace_depth_by_presence "Query" query st "  a: A {{"
                  eq_refl eq_refl)).
Defined.

(** On the header of the block the depth starts from the presence of
    an opening brace alone; a closing brace on the header line is not
    looked at (lines 72 and 76). *)
Lemma opStep_header_braceCount typeName operationType st line :
  isEmpty (trim line) = false ->
  isRootHeader typeName (trim line) = true ->
  braceCount (fst (opStep typeName operationType st line))
  = Z.b2z (includes "{" line).
Proof.
  intros He Hh. unfold opStep. rewrite He, Hh.
  cbn [fst opHeaderLine braceCount]. now rewrite countOpen_b2z.
Qed.

(* ================================================================= *)
(** ** The content of operations and of definitions *)

Lemma includes_char_trimStart_sub (c : ascii) (s : string) :
  includes (char c) s = false -> includes (char c) (trimStart s) = false.
Proof.
  induction s as [|a s IH]; intros H; [reflexivity|].
  cbn [trimStart]. destruct (isWhiteSpace a); [|exact H].
  rewrite JsFacts.includes_char_cons in H.
  apply orb_false_iff in H. now apply IH.
Qed.

Lemma includes_char_trimEnd_sub (c : ascii) (s : string) :
  includes (char c) s = false -> includes (char c) (trimEnd s) = false.
Proof.
  induction s as [|a s IH]; intros H; [reflexivity|].
  cbn [trimEnd].
  destruct (isEmpty (trimEnd s) && isWhiteSpace a); [reflexivity|].
  rewrite JsFacts.includes_char_cons in *.
  apply orb_false_iff in H. destruct H as [Ha Hs].
  now rewrite Ha, IH.
Qed.

(** The part of C4 that holds: the content of every operation is one
    line of the schema, trimmed; it holds no line break. *)
Lemma operation_content_is_one_line (s : string) :
  Forall (fun o => includes nl (op_content o) = false
                   /\ exists line, In line (split newline s)
                                   /\ op_content o = trim line)
         (operations (extract (JsString s))).
Proof.
  apply operations_from_fields.
  intros s' line ot o [= <-] Hl (cd & rest & m & _ & ->).
  cbn [op_content operationOfMatch]. split.
  - pose proof (LineFacts.split_pieces s) as P.
    rewrite Forall_forall in P. specialize (P line Hl).
    change nl with (char newline) in *. unfold trim.
    now apply includes_char_trimEnd_sub, includes_char_trimStart_sub.
  - now exists line.
Qed.

(** C4, at a scalar followed by the root block: the definition of
    [Date] is still open on the header of [Query], which is skipped
    without closing it, and the first field of [Query] is added to the
    content of [Date], beyond the end of the scalar definition. *)
Theorem scalar_content_takes_following_line :
  types (extract (JsString scalarThenQuery))
  = [ {| ty_name := "Date"; ty_kind := "scalar"; ty_description := None;
         ty_content := unlines ["scalar Date"; "  foo: Bar"] |} ]
  /\ operations (extract (JsString scalarThenQuery)) = [fooOperation].
Proof. split; vm_compute; reflexivity. Qed.

(** The same slip without a reserved header: a definition that is
    complete on its header line is only closed by a later line, so the
    comment that follows a one-line [enum] becomes part of its content
    and the description of the next definition is lost. *)
Example one_line_enum_takes_following_comment :
  types (extract (JsString (unlines
    [ "enum Color { RED GREEN BLUE }"; "# A point"; "type Point {";
      "  x: Int"; "}" ])))
  = [ {| ty_name := "Color"; ty_kind := "enum"; ty_description := None;
         ty_content := unlines ["enum Color { RED GREEN BLUE }"; "# A point"] |};
      {| ty_name := "Point"; ty_kind := "type"; ty_description := None;
         ty_content := unlines ["type Point {"; "  x: Int"; "}"] |} ].
Proof. vm_compute. reflexivity. Qed.

(** The slip in general.  A reserved header leaves the state as it
    is, so a definition that is open stays open ... *)
Lemma tyStep_reserved_header st line :
  isEmpty (trim line) = false ->
  isDescriptionLine (trim line) = false ->
  startsWithKeyword (trim line) = true ->
  opensDefinition (trim line) = false ->
  tyStep st line = st.
Proof.
  intros He Hd Hk Ho. unfold tyStep. rewrite He, Hd, Hk. cbn [andb].
  unfold opensDefinition in Ho. rewrite Hk in Ho. cbn [andb] in Ho.
  unfold tyHeaderLine.
  destruct (matchAt typeHeaderPattern (trim line)) as [[rest m]|];
    [|reflexivity].
  apply negb_false_iff in Ho. now rewrite Ho.
Qed.

(** ... and an open scalar at depth zero is closed by the next line
    that is neither empty nor a definition header, with that line in
    its content. *)
Lemma tyStep_scalar_takes_line st t line :
  inType st = true -> currentType st = Some t ->
  ty_kind t = "scalar" -> tyBraceCount st = 0%Z ->
  isEmpty (trim line) = false ->
  startsWithKeyword (trim line) = false ->
  includes "{" line = includes "}" line ->
  typeDefs (tyStep st line)
  = (typeDefs st ++ [finalize t (typeContent st ++ [line])])%list
  /\ currentType (tyStep st line) = None.
Proof.
  intros Hi Hc Hk Hb He Hkw Hbr. unfold tyStep.
  rewrite He, Hi, Hkw, Hc, andb_false_r.
  unfold tyBodyLine. rewrite Hk, Hb.
  assert (E : countClose line (countOpen line 0) = 0%Z).
  { unfold countClose, countOpen. rewrite Hbr.
    destruct (includes "}" line); reflexivity. }
  rewrite E. cbn [Z.eqb String.eqb Ascii.eqb Bool.eqb andb orb].
  rewrite orb_true_r. cbn [typeDefs currentType]. now split.
Qed.

(** The header of a definition that is not reserved does close the
    open scalar (lines 206-209), as the claim expects of every line
    that follows it. *)
Example scalar_closed_by_next_definition :
  types (extract (JsString (unlines
    ["scalar Date"; "type Point {"; "  x: Int"; "}"])))
  = [ {| ty_name := "Date"; ty_kind := "scalar"; ty_description := None;
         ty_content := "scalar Date" |};
      {| ty_name := "Point"; ty_kind := "type"; ty_description := None;
         ty_content := unlines ["type Point {"; "  x: Int"; "}"] |} ].
Proof. vm_compute. reflexivity. Qed.

(** Alone, the one-line [enum] of the specification has its line as
    content. *)
Example one_line_enum_alone :
  types (extract (JsString "enum Color { RED GREEN BLUE }"))
  = [ {| ty_name := "Color"; ty_kind := "enum"; ty_description := None;
         ty_content := "enum Color { RED GREEN BLUE }" |} ].
Proof. vm_compute. reflexivity. Qed.

(* ================================================================= *)
(** ** Lines scanned while nothing is open *)

Section Outside.

Variable typeName : string.
Variable operationType : OperationType.

(** Outside the root block, a line that is not its header changes
    neither the operations nor the fact of being outside. *)
Lemma opStep_outside st line :
  inTypeBlock st = false ->
  isRootHeader typeName (trim line) = false ->
  typeOps (fst (opStep typeName operationType st line)) = typeOps st
  /\ inTypeBlock (fst (opStep typeName operationType st line)) = false
  /\ snd (opStep typeName operationType st line) = Next.
Proof.
  intros Hin Hh. unfold opStep. rewrite Hh, Hin.
  destruct (isEmpty (trim line)); cbn [fst snd]; [|now repeat split].
  unfold opEmptyLine.
  destruct (inDescription st); cbn [typeOps inTypeBlock]; now repeat split.
Qed.

Lemma opLoop_outside lines :
  forall st,
    inTypeBlock st = false ->
    Forall (fun l => isRootHeader typeName (trim l) = false) lines ->
    typeOps (opLoop typeName operationType lines st) = typeOps st
    /\ inTypeBlock (opLoop typeName operationType lines st) = false.
Proof.
  induction lines as [|line rest IH]; intros st Hin Hl; [now split|].
  inversion Hl as [|? ? Hh Hrest]; subst.
  destruct (opStep_outside st line Hin Hh) as (Hops & Hin' & Hnext).
  cbn [opLoop].
  destruct (opStep typeName operationType st line) as [st' flow].
  cbn [fst snd] in *. subst flow.
  destruct (IH st' Hin' Hrest) as [E1 E2]. now rewrite E1, E2.
Qed.

(** The test of line 70, spelled out. *)
Lemma isRootHeader_spec trimmed :
  isRootHeader typeName trimmed = true
  <-> trimmed = "type " ++ typeName
      \/ startsWith ("type " ++ typeName ++ " ") trimmed = true
      \/ startsWith ("type " ++ typeName ++ "{") trimmed = true.
Proof.
  unfold isRootHeader. rewrite !orb_true_iff, String.eqb_eq. tauto.
Qed.

Lemma isRootHeader_nonempty trimmed :
  isRootHeader typeName trimmed = true -> isEmpty trimmed = false.
Proof.
  intros H. apply isRootHeader_spec in H.
  destruct H as [-> | [H | H]]; [reflexivity | |];
    destruct trimmed; [discriminate | reflexivity | discriminate | reflexivity].
Qed.

(** From outside, the block is entered exactly on its header. *)
Lemma opStep_enters st line :
  inTypeBlock st = false ->
  (inTypeBlock (fst (opStep typeName operationType st line)) = true
   <-> isRootHeader typeName (trim line) = true).
Proof.
  intros Hin. split.
  - intros H. destruct (isRootHeader typeName (trim line)) eqn:Hh;
      [reflexivity|].
    destruct (opStep_outside st line Hin Hh) as (_ & Hout & _). congruence.
  - intros Hh. unfold opStep.
    now rewrite (isRootHeader_nonempty _ Hh), Hh.
Qed.

End Outside.

(** A name that merely begins with the root name makes no header. *)
Lemma startsWith_append (a b s : string) :
  startsWith (a ++ b) (a ++ s) = startsWith b s.
Proof.
  induction a as [|x a IH]; [reflexivity|].
  cbn [append startsWith]. now rewrite Ascii.eqb_refl.
Qed.

Lemma eqb_append_cons (a : string) (c : ascii) (rest : string) :
  String.eqb (a ++ String c rest) a = false.
Proof.
  induction a as [|x a IH]; [reflexivity|].
  cbn [append String.eqb]. now rewrite Ascii.eqb_refl.
Qed.

Lemma longer_name_is_no_header (typeName : string) (c : ascii)
    (rest : string) :
  c <> " "%char -> c <> "{"%char ->
  isRootHeader typeName ("type " ++ typeName ++ String c rest) = false.
Proof.
  intros Hs Hb. unfold isRootHeader.
  rewrite !(startsWith_append "type "), !startsWith_append.
  change ("type " ++ typeName ++ String c rest)
    with (String "t" (String "y" (String "p" (String "e" (String " "
            (typeName ++ String c rest)))))).
  change ("type " ++ typeName)
    with (String "t" (String "y" (String "p" (String "e" (String " "
            typeName))))).
  cbn [String.eqb startsWith]. rewrite !Ascii.eqb_refl. cbn [andb].
  rewrite eqb_append_cons.
  assert (E1 : Ascii.eqb " " c = false)
    by (apply Ascii.eqb_neq; congruence).
  assert (E2 : Ascii.eqb "{" c = false)
    by (apply Ascii.eqb_neq; congruence).
  now rewrite E1, E2.
Qed.

(** With no definition open, a line that opens none changes neither
    the definitions nor the fact that none is open. *)
Lemma tyStep_outside st line :
  currentType st = None -> inType st = false ->
  opensDefinition (trim line) = false ->
  typeDefs (tyStep st line) = typeDefs st
  /\ currentType (tyStep st line) = None
  /\ inType (tyStep st line) = false.
Proof.
  intros Hc Hi Ho. unfold tyStep.
  destruct (isEmpty (trim line)); [now repeat split|].
  destruct (isDescriptionLine (trim line) && negb (inType st));
    [now repeat split|].
  unfold opensDefinition in Ho.
  destruct (startsWithKeyword (trim line)).
  - unfold tyHeaderLine. cbn [andb] in Ho.
    destruct (matchAt typeHeaderPattern (trim line)) as [[rest m]|];
      [|now repeat split].
    apply negb_false_iff in Ho. rewrite Ho. now repeat split.
  - rewrite Hi. now repeat split.
Qed.

Lemma tyLoop_outside lines :
  forall st,
    currentType st = None -> inType st = false ->
    Forall (fun l => opensDefinition (trim l) = false) lines ->
    typeDefs (fold_left tyStep lines st) = typeDefs st
    /\ currentType (fold_left tyStep lines st) = None
    /\ inType (fold_left tyStep lines st) = false.
Proof.
  induction lines as [|line rest IH]; intros st Hc Hi Hl; [now repeat split|].
  inversion Hl as [|? ? Ho Hrest]; subst.
  destruct (tyStep_outside st line Hc Hi Ho) as (Hd & Hc' & Hi').
  cbn [fold_left].
  destruct (IH (tyStep st line) Hc' Hi' Hrest) as (E1 & E2 & E3).
  now rewrite E1, E2, E3.
Qed.

Lemma isReserved_false (name : string) :
  isReserved name = false ->
  name <> "Query" /\ name <> "Mutation" /\ name <> "Subscription".
Proof.
  unfold isReserved. intros H.
  apply orb_false_iff in H. destruct H as [H H3].
  apply orb_false_iff in H. destruct H as [H1 H2].
  now rewrite !String.eqb_neq in *.
Qed.

(* ================================================================= *)
(** ** The header of a [Subscription] block *)

Lemma consumed_append (a b : string) : consumed (a ++ b) b = a.
Proof.
  unfold consumed.
  replace (String.length (a ++ b) - String.length b)
    with (String.length a).
  - induction a as [|x a IH]; cbn [append String.length].
    + now destruct b.
    + cbn [substring]. now rewrite IH.
  - induction a as [|x a IH]; cbn [append String.length].
    + now rewrite Nat.sub_diag.
    + rewrite IH at 1.
      assert (String.length b <= String.length (a ++ b)).
      { clear. induction a; cbn [append String.length]; lia. }
      lia.
Qed.

(** A header [type Subscription ...] is the header of neither root
    block, and the type pass skips it: the header pattern captures the
    name [Subscription], which is reserved. *)
Lemma subscription_header_skipped (rest : string) :
  startsWithWordChar rest = false ->
  isRootHeader "Query" ("type Subscription" ++ rest) = false
  /\ isRootHeader "Mutation" ("type Subscription" ++ rest) = false
  /\ opensDefinition ("type Subscription" ++ rest) = false.
Proof.
  intros Hw. split; [reflexivity | split; [reflexivity|]].
  unfold opensDefinition, matchAt, typeHeaderPattern, seq.
  destruct rest as [|c r]; [reflexivity|].
  cbn [startsWithWordChar] in Hw.
  cbn -[consumed String.length]. rewrite Hw.
  cbn -[consumed String.length].
  change (String "S" (String "u" (String "b" (String "s" (String "c"
            (String "r" (String "i" (String "p" (String "t" (String "i"
            (String "o" (String "n" (String c r)))))))))))))
    with ("Subscription" ++ String c r).
  now rewrite consumed_append.
Qed.

Lemma startsWith_prefix (a b t : string) :
  startsWith (a ++ b) t = true -> startsWith a t = true.
Proof.
  revert t. induction a as [|x a IH]; intros t H; [reflexivity|].
  destruct t as [|y t]; [discriminate|].
  cbn [append startsWith] in *.
  apply andb_true_iff in H. destruct H as [Hx H].
  rewrite Hx. now apply IH.
Qed.

(** A line that does not start with a definition keyword opens
    nothing. *)
Lemma plain_line_opens_nothing (typeName line : string) :
  startsWithKeyword (trim line) = false -> opensNothing typeName line.
Proof.
  intros Hk. split.
  - destruct (isRootHeader typeName (trim line)) eqn:Hh; [|reflexivity].
    assert (T : startsWith "type " (trim line) = true).
    { apply isRootHeader_spec in Hh. destruct Hh as [E | [E | E]].
      - rewrite E. reflexivity.
      - now apply (startsWith_prefix "type " (typeName ++ " ")).
      - now apply (startsWith_prefix "type " (typeName ++ "{")). }
    unfold startsWithKeyword in Hk. rewrite T in Hk. discriminate.
  - unfold opensDefinition. now rewrite Hk.
Qed.

(* ================================================================= *)
(** ** Reserved root types *)

(** C5, the claim as stated fails: after a [Query] block written on
    one line, which the operation pass never sees closed, the field of
    the [Subscription] block below it is listed as a query.  Without
    the [Subscription] block the input has no operation at all. *)
Lemma subscription_field_listed_as_query :
  operations (extract (JsString (unlines
    ("type Query { foo: Bar }" :: subscriptionBlock))))
  = [pingOperation]
  /\ operations (extract (JsString "type Query { foo: Bar }")) = [].
Proof. split; vm_compute; reflexivity. Qed.

(** Why the lines of the block matter: a line of a [Subscription]
    block that starts with a definition keyword, here a line of a
    block string, opens a definition. *)
Example subscription_line_with_keyword_opens_definition :
  map ty_name (types (extract (JsString (unlines
    [ "type Subscription {"; "  " ++ tripleQuote;
      "  type Foo is returned"; "  " ++ tripleQuote;
      "  ping: Boolean"; "}" ]))))
  = ["Foo"].
Proof. vm_compute. reflexivity. Qed.

(** C5, amended: for every input no definition of the output is named
    [Query], [Mutation] or [Subscription].  A header line
    [type Subscription ...] opens neither the [Query] block, nor the
    [Mutation] block, nor a definition, and neither does a line that
    starts with none of the six definition keywords.  Lines none of
    which opens a root block or a definition add no operation and no
    definition when they are scanned while no root block and no
    definition is open, and leave none open.  So a [Subscription]
    block made of its header and of lines that start with no
    definition keyword contributes to neither list when it is scanned
    while no [Query] or [Mutation] block and no definition is open; as
    the whole input it gives two empty lists, as do
    [type Subscription { ping: Boolean }] and the same block written
    over three lines. *)
Theorem reserved_roots_not_listed :
  (forall schema,
      Forall (fun t => ty_name t <> "Query" /\ ty_name t <> "Mutation"
                       /\ ty_name t <> "Subscription")
             (types (extract schema)))
  /\ (forall line rest,
         trim line = "type Subscription" ++ rest ->
         startsWithWordChar rest = false ->
         opensNothing "Query" line /\ opensNothing "Mutation" line)
  /\ (forall typeName line,
         startsWithKeyword (trim line) = false ->
         opensNothing typeName line)
  /\ (forall typeName operationType ops tys block,
         inTypeBlock ops = false ->
         currentType tys = None -> inType tys = false ->
         Forall (opensNothing typeName) block ->
         typeOps (opLoop typeName operationType block ops) = typeOps ops
         /\ inTypeBlock (opLoop typeName operationType block ops) = false
         /\ typeDefs (fold_left tyStep block tys) = typeDefs tys
         /\ currentType (fold_left tyStep block tys) = None)
  /\ (forall typeName operationType ops tys header rest body,
         typeName = "Query" \/ typeName = "Mutation" ->
         inTypeBlock ops = false ->
         currentType tys = None -> inType tys = false ->
         trim header = "type Subscription" ++ rest ->
         startsWithWordChar rest = false ->
         Forall (fun l => startsWithKeyword (trim l) = false) body ->
         typeOps (opLoop typeName operationType (header :: body) ops)
         = typeOps ops
         /\ inTypeBlock (opLoop typeName operationType (header :: body) ops)
            = false
         /\ typeDefs (fold_left tyStep (header :: body) tys) = typeDefs tys
         /\ currentType (fold_left tyStep (header :: body) tys) = None)
  /\ (forall header rest body,
         trim header = "type Subscription" ++ rest ->
         startsWithWordChar rest = false ->
         Forall (fun l => startsWithKeyword (trim l) = false) body ->
         parseOperationsFromType (header :: body) "Query" query = []
         /\ parseOperationsFromType (header :: body) "Mutation" mutation = []
         /\ parseTypes (header :: body) = [])
  /\ extract (JsString subscriptionOneLine) = noExtraction
  /\ extract (JsString (unlines subscriptionBlock)) = noExtraction.
Proof.
  assert (Frame : forall typeName operationType ops tys block,
             inTypeBlock ops = false ->
             currentType tys = None -> inType tys = false ->
             Forall (opensNothing typeName) block ->
             typeOps (opLoop typeName operationType block ops) = typeOps ops
             /\ inTypeBlock (opLoop typeName operationType block ops) = false
             /\ typeDefs (fold_left tyStep block tys) = typeDefs tys
             /\ currentType (fold_left tyStep block tys) = None).
  { intros typeName operationType ops tys block Hin Hc Hi Hb.
    destruct (opLoop_outside typeName operationType block ops Hin)
      as [E1 E2].
    { eapply Forall_impl; [|exact Hb]. now intros l [H _]. }
    destruct (tyLoop_outside block tys Hc Hi) as (E3 & E4 & _).
    { eapply Forall_impl; [|exact Hb]. now intros l [_ H]. }
    now repeat split. }
  assert (Block : forall typeName header rest body,
             typeName = "Query" \/ typeName = "Mutation" ->
             trim header = "type Subscription" ++ rest ->
             startsWithWordChar rest = false ->
             Forall (fun l => startsWithKeyword (trim l) = false) body ->
             Forall (opensNothing typeName) (header :: body)).
  { intros typeName header rest body Hn E Hw Hb. constructor.
    - unfold opensNothing. rewrite E.
      destruct (subscription_header_skipped rest Hw) as (H1 & H2 & H3).
      destruct Hn as [-> | ->]; now split.
    - eapply Forall_impl; [|exact Hb].
      intros l Hl. now apply plain_line_opens_nothing. }
  split; [|split; [|split; [|split; [|split; [|split; [|split]]]]]].
  - intros schema. apply types_from_headers.
    + intros t content H. exact H.
    + intros s line t _ _ (rest & m & d & _ & R & -> & _).
      now apply isReserved_false.
  - intros line rest E Hw. unfold opensNothing. rewrite E.
    destruct (subscription_header_skipped rest Hw) as (H1 & H2 & H3).
    now repeat split.
  - exact plain_line_opens_nothing.
  - exact Frame.
  - intros typeName operationType ops tys header rest body Hn Hin Hc Hi
      E Hw Hb.
    apply Frame; try assumption. now apply (Block typeName header rest).
  - intros header rest body E Hw Hb.
    destruct (Frame "Query" query initialOpState initialTypeState
                (header :: body) eq_refl eq_refl eq_refl)
      as (Q & _ & T & C);
      [apply (Block "Query" header rest); auto|].
    destruct (Frame "Mutation" mutation initialOpState initialTypeState
                (header :: body) eq_refl eq_refl eq_refl)
      as (M & _ & _ & _);
      [apply (Block "Mutation" header rest); auto|].
    unfold parseOperationsFromType, parseTypes, pushCurrent.
    now rewrite Q, M, C, T.
  - vm_compute. reflexivity.
  - vm_compute. reflexivity.
Qed.

Lemma reserved_roots_not_listed_witness :
  typeOps (opLoop "Query" query subscriptionBlock initialOpState) = []
  /\ typeDefs (fold_left tyStep subscriptionBlock initialTypeState) = []
  /\ parseTypes subscriptionBlock = [].
Proof.
  destruct reserved_roots_not_listed
    as (_ & _ & _ & _ & Block & Whole & _).
  assert (B : Forall (fun l => startsWithKeyword (trim l) = false)
                ["  ping: Boolean"; "}"]) by (repeat constructor).
  destruct (Block "Query" query initialOpState initialTypeState
              "type Subscription {" " {" ["  ping: Boolean"; "}"]
              (or_introl eq_refl) eq_refl eq_refl eq_refl eq_refl eq_refl B)
    as (E1 & _ & E2 & _).
  destruct (Whole "type Subscription {" " {" ["  ping: Boolean"; "}"]
              eq_refl eq_refl B) as (_ & _ & E3).
  split; [exact E1 | split; [exact E2 | exact E3]].
Defined.

(* ================================================================= *)
(** ** The header of the root block *)

(** C10, the claim as stated fails: after a [Query] block written on
    one line, the field of [type QueryResult] is listed as a query. *)
Lemma longer_name_field_listed_as_query :
  operations (extract (JsString (unlines
    ("type Query { foo: Bar }" :: queryResultBlock))))
  = [okOperation]
  /\ operations (extract (JsString "type Query { foo: Bar }")) = [].
Proof. split; vm_compute; reflexivity. Qed.

(** Why the lines of the type matter: a line of [type QueryResult]
    that passes the header test of [Query], here a line of a block
    string, enters the root block, and the field below it is listed. *)
Example root_header_text_inside_longer_type :
  map op_name (operations (extract (JsString (unlines
    [ "type QueryResult {"; "  " ++ tripleQuote;
      "  type Query { returns this"; "  " ++ tripleQuote;
      "  ok: Boolean"; "}" ]))))
  = ["ok"].
Proof. vm_compute. reflexivity. Qed.

Lemma startsWith_refl (p : string) : startsWith p p = true.
Proof.
  induction p as [|a p IH]; [reflexivity|].
  cbn [startsWith]. now rewrite Ascii.eqb_refl.
Qed.

(** A line whose trimmed text does not start with [type <root>] does
    not pass the header test. *)
Lemma no_root_prefix_is_no_header (typeName trimmed : string) :
  startsWith ("type " ++ typeName) trimmed = false ->
  isRootHeader typeName trimmed = false.
Proof.
  intros H. destruct (isRootHeader typeName trimmed) eqn:Hh; [|reflexivity].
  apply isRootHeader_spec in Hh. destruct Hh as [E | [E | E]].
  - subst trimmed. rewrite startsWith_refl in H. discriminate.
  - rewrite <- JsFacts.append_assoc in E.
    apply startsWith_prefix in E. congruence.
  - rewrite <- JsFacts.append_assoc in E.
    apply startsWith_prefix in E. congruence.
Qed.

(** C10, amended: from outside the root block, the operation pass
    enters it exactly on a line whose trimmed text is [type <root>] or
    starts with [type <root>] followed by a space or by an opening
    brace; the header of a type whose name merely begins with the root
    name is no such line.  Lines none of which is such a line, scanned
    while the pass is outside the root block, add no operation and
    leave it outside.  So a type whose name merely begins with the
    root name contributes no operation when the pass is outside the
    root block at its header and none of the lines below the header
    starts, once trimmed, with [type <root>]; the block
    [type QueryResult] with the field [ok] alone gives no operation. *)
Theorem root_block_entered_on_header_only :
  (forall typeName operationType st line,
      inTypeBlock st = false ->
      (inTypeBlock (fst (opStep typeName operationType st line)) = true
       <-> trim line = "type " ++ typeName
           \/ startsWith ("type " ++ typeName ++ " ") (trim line) = true
           \/ startsWith ("type " ++ typeName ++ "{") (trim line) = true))
  /\ (forall typeName c rest,
         c <> " "%char -> c <> "{"%char ->
         isRootHeader typeName ("type " ++ typeName ++ String c rest)
         = false)
  /\ (forall typeName operationType st lines,
         inTypeBlock st = false ->
         Forall (fun l => isRootHeader typeName (trim l) = false) lines ->
         typeOps (opLoop typeName operationType lines st) = typeOps st
         /\ inTypeBlock (opLoop typeName operationType lines st) = false)
  /\ (forall typeName operationType st header c rest body,
         inTypeBlock st = false ->
         trim header = "type " ++ typeName ++ String c rest ->
         c <> " "%char -> c <> "{"%char ->
         Forall (fun l => startsWith ("type " ++ typeName) (trim l) = false)
                body ->
         typeOps (opLoop typeName operationType (header :: body) st)
         = typeOps st
         /\ inTypeBlock (opLoop typeName operationType (header :: body) st)
            = false)
  /\ operations (extract (JsString (unlines queryResultBlock))) = [].
Proof.
  split; [|split; [|split; [|split]]].
  - intros typeName operationType st line Hin.
    rewrite (opStep_enters typeName operationType st line Hin).
    apply isRootHeader_spec.
  - exact longer_name_is_no_header.
  - intros typeName operationType st lines.
    apply opLoop_outside.
  - intros typeName operationType st header c rest body Hin E Hs Hb Hbody.
    apply opLoop_outside; [exact Hin|]. constructor.
    + rewrite E. now apply longer_name_is_no_header.
    + eapply Forall_impl; [|exact Hbody].
      intros l Hl. now apply no_root_prefix_is_no_header.
  - vm_compute. reflexivity.
Qed.

Lemma root_block_entered_on_header_only_witness :
  typeOps (opLoop "Query" query queryResultBlock initialOpState) = []
  /\ inTypeBlock (opLoop "Query" query queryResultBlock initialOpState)
     = false.
Proof.
  destruct root_block_entered_on_header_only as (_ & _ & _ & Block & _).
  apply (Block "Query" query initialOpState "type QueryResult {"
           "R"%char "esult {" ["  ok: Boolean"; "}"] eq_refl eq_refl).
  - discriminate.
  - discriminate.
  - repeat constructor.
Defined.

(* ================================================================= *)
(** ** Facts about the matcher *)

Module RegexFacts.

Lemma orEmpty_some (v : string) : orEmpty (Some v) = v.
Proof. now destruct v. Qed.

Lemma allChars_append (p : ascii -> bool) (a b : string) :
  allChars p (a ++ b) = allChars p a && allChars p b.
Proof.
  induction a as [|x a IH]; [reflexivity|].
  cbn [append allChars]. now rewrite IH, andb_assoc.
Qed.

(** A successful greedy star took a run of the class and then the
    continuation succeeded on what is left. *)
Lemma greedyStar_inv (p : ascii -> bool) (k : cont) (s : string)
    (c : captures) (res : string * captures) :
  greedyStar p k s c = Some res ->
  exists pre s', s = pre ++ s' /\ allChars p pre = true
                 /\ k s' c = Some res.
Proof.
  induction s as [|a s IH]; cbn [greedyStar]; intros H.
  - now exists EmptyString, EmptyString.
  - destruct (p a) eqn:Pa.
    + destruct (greedyStar p k s c) as [r0|] eqn:G.
      * injection H as ->. destruct (IH eq_refl) as (pre & s' & -> & Hp & Hk).
        exists (String a pre), s'. cbn [append allChars].
        now rewrite Pa, Hp.
      * now exists EmptyString, (String a s).
    + now exists EmptyString, (String a s).
Qed.

Lemma lazyStar_inv (p : ascii -> bool) (k : cont) (s : string)
    (c : captures) (res : string * captures) :
  lazyStar p k s c = Some res ->
  exists pre s', s = pre ++ s' /\ allChars p pre = true
                 /\ k s' c = Some res.
Proof.
  induction s as [|a s IH]; cbn [lazyStar]; intros H.
  - destruct (k EmptyString c) as [r0|] eqn:K; [|discriminate].
    injection H as ->. now exists EmptyString, EmptyString.
  - destruct (k (String a s) c) as [r0|] eqn:K.
    + injection H as ->. now exists EmptyString, (String a s).
    + destruct (p a) eqn:Pa; [|discriminate].
      destruct (IH H) as (pre & s' & -> & Hp & Hk).
      exists (String a pre), s'. cbn [append allChars].
      now rewrite Pa, Hp.
Qed.

Lemma dropPrefix_inv (l s s' : string) :
  dropPrefix l s = Some s' -> s = l ++ s'.
Proof.
  revert s. induction l as [|a l IH]; intros s H.
  - now injection H as ->.
  - destruct s as [|b s]; [discriminate|]. cbn [dropPrefix] in H.
    destruct (Ascii.eqb a b) eqn:E; [|discriminate].
    apply Ascii.eqb_eq in E. subst b. cbn [append].
    now rewrite (IH s H).
Qed.

Lemma run_Lit_inv (l : string) (k : cont) (s : string) (c : captures)
    (res : string * captures) :
  run (Lit l) k s c = Some res ->
  exists s', s = l ++ s' /\ k s' c = Some res.
Proof.
  cbn [run]. destruct (dropPrefix l s) as [s'|] eqn:D; [|discriminate].
  intros H. exists s'. split; [now apply dropPrefix_inv | exact H].
Qed.

Lemma run_Alt_inv (r1 r2 : regex) (k : cont) (s : string) (c : captures)
    (res : string * captures) :
  run (Alt r1 r2) k s c = Some res ->
  run r1 k s c = Some res \/ run r2 k s c = Some res.
Proof.
  cbn [run]. destruct (run r1 k s c) as [x|]; [|now right].
  intros [= ->]. now left.
Qed.

(** A group around [c+] captures a non-empty run of the class. *)
Lemma run_Group_Plus_inv (i : nat) (p : ascii -> bool) (k : cont)
    (s : string) (c : captures) (res : string * captures) :
  run (Group i (Plus p)) k s c = Some res ->
  exists v s', s = v ++ s' /\ isEmpty v = false /\ allChars p v = true
               /\ k s' ((i, v) :: c) = Some res.
Proof.
  cbn [run]. destruct s as [|a s]; [discriminate|].
  destruct (p a) eqn:Pa; [|discriminate]. intros H.
  apply greedyStar_inv in H. destruct H as (pre & s' & -> & Hp & Hk).
  exists (String a pre), s'.
  change (String a (pre ++ s')) with (String a pre ++ s') in Hk.
  rewrite consumed_append in Hk. cbn [allChars isEmpty append].
  now rewrite Pa, Hp.
Qed.

Lemma extendsWith_refl (gs : list nat) (c : captures) : extendsWith gs c c.
Proof. exists []. now split. Qed.

Lemma extendsWith_trans (gs1 gs2 gs : list nat) (c1 c2 c3 : captures) :
  incl gs1 gs -> incl gs2 gs ->
  extendsWith gs1 c1 c2 -> extendsWith gs2 c2 c3 -> extendsWith gs c1 c3.
Proof.
  intros I1 I2 (n1 & -> & F1) (n2 & -> & F2).
  exists (n2 ++ n1)%list. split; [now rewrite app_assoc|].
  apply Forall_app. split.
  - eapply Forall_impl; [|exact F2]. intros b Hb. now apply I2.
  - eapply Forall_impl; [|exact F1]. intros b Hb. now apply I1.
Qed.

(** A successful run ends in its continuation, and the captures it
    hands over are the given ones with bindings of its own groups in
    front. *)
Lemma run_inv (r : regex) :
  forall (k : cont) (s : string) (c : captures) (res : string * captures),
    run r k s c = Some res ->
    exists s' c', k s' c' = Some res /\ extendsWith (groups r) c c'.
Proof.
  induction r as [l|p|p|p|p|r1 IH1 r2 IH2|r1 IH1 r2 IH2|r1 IH1|i r1 IH1|];
    intros k s c res H.
  - apply run_Lit_inv in H. destruct H as (s' & _ & Hk).
    exists s', c. split; [exact Hk | apply extendsWith_refl].
  - cbn [run] in H. destruct s as [|a s]; [discriminate|].
    destruct (p a); [|discriminate].
    exists s, c. split; [exact H | apply extendsWith_refl].
  - cbn [run] in H. apply greedyStar_inv in H.
    destruct H as (_ & s' & _ & _ & Hk).
    exists s', c. split; [exact Hk | apply extendsWith_refl].
  - cbn [run] in H. destruct s as [|a s]; [discriminate|].
    destruct (p a); [|discriminate]. apply greedyStar_inv in H.
    destruct H as (_ & s' & _ & _ & Hk).
    exists s', c. split; [exact Hk | apply extendsWith_refl].
  - cbn [run] in H. destruct s as [|a s]; [discriminate|].
    destruct (p a); [|discriminate]. apply lazyStar_inv in H.
    destruct H as (_ & s' & _ & _ & Hk).
    exists s', c. split; [exact Hk | apply extendsWith_refl].
  - cbn [run] in H. apply IH1 in H. destruct H as (s1 & c1 & H & E1).
    apply IH2 in H. destruct H as (s2 & c2 & H & E2).
    exists s2, c2. split; [exact H|]. cbn [groups].
    eapply extendsWith_trans; [| |exact E1|exact E2].
    + now apply incl_appl.
    + now apply incl_appr.
  - cbn [groups]. apply run_Alt_inv in H. destruct H as [H | H].
    + apply IH1 in H. destruct H as (s1 & c1 & H & E1).
      exists s1, c1. split; [exact H|].
      eapply extendsWith_trans;
        [| apply incl_nil_l | exact E1 | apply extendsWith_refl].
      now apply incl_appl.
    + apply IH2 in H. destruct H as (s1 & c1 & H & E1).
      exists s1, c1. split; [exact H|].
      eapply extendsWith_trans;
        [| apply incl_nil_l | exact E1 | apply extendsWith_refl].
      now apply incl_appr.
  - cbn [run] in H. cbn [groups].
    destruct (run r1 k s c) as [x|] eqn:R.
    + injection H as ->. now apply IH1 in R.
    + exists s, c. split; [exact H | apply extendsWith_refl].
  - cbn [run] in H. apply IH1 in H. destruct H as (s1 & c1 & H & (n & -> & F)).
    exists s1, ((i, consumed s s1) :: n ++ c)%list. split; [exact H|].
    exists ((i, consumed s s1) :: n). split; [reflexivity|].
    cbn [groups]. constructor; [now left|].
    eapply Forall_impl; [|exact F]. intros b Hb. now right.
  - cbn [run] in H. destruct s; [|discriminate].
    exists EmptyString, c. split; [exact H | apply extendsWith_refl].
Qed.

(** Bindings of other groups do not hide a capture. *)
Lemma capture_extendsWith (gs : list nat) (i : nat) (c c' : captures) :
  ~ In i gs -> extendsWith gs c c' -> capture i c' = capture i c.
Proof.
  intros Hi (n & -> & F). induction F as [|[j v] n Hj _ IH]; [reflexivity|].
  cbn [app capture]. destruct (Nat.eqb i j) eqn:E; [|exact IH].
  apply Nat.eqb_eq in E. subst j. now elim Hi.
Qed.

Lemma run_Seq (r1 r2 : regex) (k : cont) (s : string) (c : captures) :
  run (Seq r1 r2) k s c = run r1 (fun s' c' => run r2 k s' c') s c.
Proof. reflexivity. Qed.

Lemma run_Star_inv (p : ascii -> bool) (k : cont) (s : string)
    (c : captures) (res : string * captures) :
  run (Star p) k s c = Some res -> exists s', k s' c = Some res.
Proof.
  cbn [run]. intros H. apply greedyStar_inv in H.
  destruct H as (_ & s' & _ & _ & H). now exists s'.
Qed.

Lemma run_Plus_inv (p : ascii -> bool) (k : cont) (s : string)
    (c : captures) (res : string * captures) :
  run (Plus p) k s c = Some res -> exists s', k s' c = Some res.
Proof.
  cbn [run]. destruct s as [|a s]; [discriminate|].
  destruct (p a); [|discriminate]. intros H. apply greedyStar_inv in H.
  destruct H as (_ & s' & _ & _ & H). now exists s'.
Qed.

(** The first group of the field pattern is a non-empty identifier. *)
Lemma fieldPattern_name (s rest : string) (m : captures) :
  matchAt fieldPattern s = Some (rest, m) ->
  isIdentifier (orEmpty (capture 1 m)) = true.
Proof.
  unfold matchAt, fieldPattern, seq. cbn [fold_right]. intros H.
  rewrite run_Seq in H. apply run_Star_inv in H. destruct H as (s1 & H).
  rewrite run_Seq in H.
  apply (run_Group_Plus_inv 1 isWordChar) in H.
  destruct H as (v & s2 & _ & Hv & Hw & H).
  apply run_inv in H. destruct H as (s3 & c3 & [= <- <-] & E).
  pose proof (fun N => capture_extendsWith _ 1 _ _ N E) as C.
  rewrite C by (cbn; intuition discriminate).
  cbn [capture Nat.eqb]. rewrite orEmpty_some.
  unfold isIdentifier. now rewrite Hv, Hw.
Qed.

(** The header pattern captures one of the six keywords and a
    non-empty identifier. *)
Lemma typeHeaderPattern_captures (s rest : string) (m : captures) :
  matchAt typeHeaderPattern s = Some (rest, m) ->
  In (orEmpty (capture 1 m)) typeKinds
  /\ isIdentifier (orEmpty (capture 2 m)) = true.
Proof.
  unfold matchAt, typeHeaderPattern, seq. cbn [fold_right]. intros H.
  rewrite run_Seq in H.
  assert (K : exists kw s', In kw typeKinds
              /\ run (Seq (Plus isWhiteSpace)
                        (Seq (Group 2 (Plus isWordChar)) (Lit EmptyString)))
                   (fun s'' c'' => Some (s'', c'')) s' [(1, kw)]
                 = Some (rest, m)).
  { change (run (Group 1 ?r) ?k s []) with
      (run r (fun s' c' => k s' ((1, consumed s s') :: c')) s []) in H.
    repeat (apply run_Alt_inv in H; destruct H as [H | H]);
      apply run_Lit_inv in H; destruct H as (s' & E & H);
      rewrite E, consumed_append in H;
      eexists _, s'; (split; [|exact H]); cbn; tauto. }
  clear H. destruct K as (kw & s' & Hkw & H).
  rewrite run_Seq in H. apply run_Plus_inv in H. destruct H as (s1 & H).
  rewrite run_Seq in H.
  apply (run_Group_Plus_inv 2 isWordChar) in H.
  destruct H as (v & s2 & _ & Hv & Hw & H).
  cbn [run dropPrefix] in H. injection H as <- <-.
  cbn [capture Nat.eqb]. rewrite !orEmpty_some. split; [exact Hkw|].
  unfold isIdentifier. now rewrite Hv, Hw.
Qed.

(** Every match of a global search is a match at some position. *)
Lemma matchAllFrom_in (r : regex) (m : captures) (s : string) :
  forall skip,
    In m (matchAllFrom r skip s) ->
    exists s' rest, matchAt r s' = Some (rest, m).
Proof.
  induction s as [|a s IH]; intros skip H.
  - destruct skip; [|destruct H]. cbn [matchAllFrom] in H.
    destruct (matchAt r EmptyString) as [[rest c]|] eqn:M; [|destruct H].
    destruct H as [<- | []]. now exists EmptyString, rest.
  - destruct skip as [|n]; cbn [matchAllFrom] in H.
    + destruct (matchAt r (String a s)) as [[rest c]|] eqn:M.
      * destruct H as [<- | H]; [now exists (String a s), rest|].
        now apply IH in H.
      * now apply IH in H.
    + now apply IH in H.
Qed.

(** The first group of the argument pattern is a non-empty
    identifier. *)
Lemma paramPattern_name (s rest : string) (m : captures) :
  matchAt paramPattern s = Some (rest, m) ->
  isIdentifier (orEmpty (capture 1 m)) = true.
Proof.
  unfold matchAt, paramPattern, seq. cbn [fold_right]. intros H.
  rewrite run_Seq in H.
  apply (run_Group_Plus_inv 1 isWordChar) in H.
  destruct H as (v & s2 & _ & Hv & Hw & H).
  apply run_inv in H. destruct H as (s3 & c3 & [= <- <-] & E).
  pose proof (fun N => capture_extendsWith _ 1 _ _ N E) as C.
  rewrite C by (cbn; intuition discriminate).
  cbn [capture Nat.eqb]. rewrite orEmpty_some.
  unfold isIdentifier. now rewrite Hv, Hw.
Qed.

End RegexFacts.

(* ================================================================= *)
(** ** Names, kinds and parameters of the output *)

Lemma types_kind_and_name (schema : JsValue) :
  Forall (fun t => isIdentifier (ty_name t) = true
                   /\ In (ty_kind t) typeKinds)
         (types (extract schema)).
Proof.
  apply types_from_headers.
  - intros t content H. exact H.
  - intros s line t _ _ (rest & m & d & M & _ & -> & -> & _).
    destruct (RegexFacts.typeHeaderPattern_captures _ _ _ M) as [K N].
    now split.
Qed.

(** X3: Every extracted operation is named by a non-empty run of word
    characters; so is every extracted definition, and its kind is one
    of the six definition keywords (which is what the cast of line 211
    takes for granted). *)
Theorem names_are_identifiers (schema : JsValue) :
  Forall (fun o => isIdentifier (op_name o) = true)
         (operations (extract schema))
  /\ Forall (fun t => isIdentifier (ty_name t) = true
                      /\ In (ty_kind t) typeKinds)
            (types (extract schema)).
Proof.
  split.
  - apply operations_from_fields.
    intros s line ot o _ _ (cd & rest & m & M & ->).
    cbn [op_name operationOfMatch].
    now apply (RegexFacts.fieldPattern_name (trim line) rest).
  - apply types_kind_and_name.
Qed.

(** X2: The [parameters] of an extracted operation are either absent or a
    non-empty list (so the test of lines 711 and 931 only asks whether
    they are present), and every parameter is named by a non-empty run
    of word characters. *)
Theorem parameters_absent_or_nonempty (schema : JsValue) :
  Forall (fun o =>
            match op_parameters o with
            | None => True
            | Some ps =>
                ps <> []
                /\ Forall (fun p => isIdentifier (param_name p) = true) ps
            end)
         (operations (extract schema)).
Proof.
  apply operations_from_fields.
  intros s line ot o _ _ (cd & rest & m & _ & ->).
  cbn [op_parameters operationOfMatch].
  destruct (parseParameters (orEmpty (capture 2 m))) as [|p ps] eqn:P;
    [exact I|].
  cbn [List.length Nat.ltb Nat.leb]. split; [discriminate|].
  rewrite <- P. unfold parseParameters.
  destruct (isEmpty (orEmpty (capture 2 m))); [constructor|].
  apply Forall_forall. intros q Hq. apply in_map_iff in Hq.
  destruct Hq as (pm & <- & Hpm). cbn [param_name parameterOfMatch].
  apply RegexFacts.matchAllFrom_in in Hpm. destruct Hpm as (s' & r' & Hpm).
  now apply (RegexFacts.paramPattern_name s' r').
Qed.

Example empty_argument_list_gives_no_parameters :
  map op_parameters (operations (extract (JsString (unlines
    ["type Query {"; "  now(): Time"; "  at(zone: Zone!): Time"; "}"]))))
  = [ None;
      Some [{| param_name := "zone"; param_type := "Zone";
               param_required := true |}] ].
Proof. vm_compute. reflexivity. Qed.

(* ================================================================= *)
(** ** Colours and icons *)

(** X4: Every kind of an extracted definition has a colour and an icon of
    its own in the tables of [getTypeColor] and [getTypeIcon]: the
    fallbacks are never shown for an extracted definition. *)
Theorem extracted_kinds_have_colour_and_icon (schema : JsValue) :
  Forall (fun t =>
            exists colour icon,
              getTypeColor (ty_kind t) = Text colour
              /\ In (ty_kind t, colour) colors
              /\ getTypeIcon (ty_kind t) = Text icon
              /\ In (ty_kind t, icon) icons)
         (types (extract schema)).
Proof.
  eapply Forall_impl; [|exact (types_kind_and_name schema)].
  intros t [_ K]. cbn in K.
  destruct K as [K | [K | [K | [K | [K | [K | []]]]]]]; rewrite <- K;
    eexists _, _; (split; [reflexivity|]);
    (split; [cbn; tauto|]); (split; [reflexivity|]); cbn; tauto.
Qed.

(** X5: A key that is in neither table and is no member of
    [Object.prototype] gets the fallback colour and the fallback icon;
    a key of a table never does. *)
Theorem colour_and_icon_fallback (type : string) :
  (ownProperty colors type = None ->
   existsb (String.eqb type) objectPrototypeKeys = false ->
   getTypeColor type = Text "#24292e" /\ getTypeIcon type = Text "?")
  /\ (forall v, ownProperty colors type = Some v ->
        getTypeColor type = Text v /\ v <> "#24292e"
        /\ exists i, getTypeIcon type = Text i /\ i <> "?").
Proof.
  split.
  - intros Hc Hp. unfold getTypeColor, getTypeIcon, lookupOr.
    rewrite Hc, Hp.
    assert (Hi : ownProperty icons type = None).
    { revert Hc. cbn [ownProperty colors icons].
      repeat (destruct (String.eqb type _); [discriminate|]).
      reflexivity. }
    now rewrite Hi.
  - intros v Hv. unfold getTypeColor, getTypeIcon, lookupOr. rewrite Hv.
    revert Hv. cbn [ownProperty colors icons].
    repeat (destruct (String.eqb type _);
            [intros [= <-]; cbn [isEmpty];
             split; [reflexivity | split; [discriminate|]];
             eexists; split; [reflexivity | discriminate]|]).
    discriminate.
Qed.

Lemma colour_and_icon_fallback_witness :
  getTypeColor "directive" = Text "#24292e"
  /\ getTypeIcon "directive" = Text "?".
Proof.
  apply (proj1 (colour_and_icon_fallback "directive")); reflexivity.
Defined.

(* ================================================================= *)
(** ** Queries and mutations *)

Lemma filter_all {A : Type} (p : A -> bool) (l : list A) :
  Forall (fun x => p x = true) l -> filter p l = l.
Proof.
  induction 1 as [|x l Hx _ IH]; [reflexivity|].
  cbn [filter]. now rewrite Hx, IH.
Qed.

Lemma filter_none {A : Type} (p : A -> bool) (l : list A) :
  Forall (fun x => p x = false) l -> filter p l = [].
Proof.
  induction 1 as [|x l Hx _ IH]; [reflexivity|].
  cbn [filter]. now rewrite Hx, IH.
Qed.

Lemma parseOperationsFromType_type lines typeName operationType :
  Forall (fun o => op_type o = operationType)
         (parseOperationsFromType lines typeName operationType).
Proof.
  apply parseOperationsFromType_ops.
  now intros line o _ (cd & rest & m & _ & ->).
Qed.

(** X1: The two filters of lines 251-252 split the operations without
    loss and without reordering: [queries] is what the pass over
    [Query] produced, [mutations] what the pass over [Mutation]
    produced, and [operations] is the first followed by the second. *)
Theorem queries_then_mutations (schema : JsValue) :
  (queries (extract schema) ++ mutations (extract schema))%list
  = operations (extract schema)
  /\ (forall s, schema = JsString s -> s <> EmptyString ->
        queries (extract schema)
        = parseOperationsFromType (split newline s) "Query" query
        /\ mutations (extract schema)
           = parseOperationsFromType (split newline s) "Mutation" mutation).
Proof.
  assert (T : forall s,
             queries (extractFromText s)
             = parseOperationsFromType (split newline s) "Query" query
             /\ mutations (extractFromText s)
                = parseOperationsFromType (split newline s) "Mutation"
                    mutation).
  { intros s. unfold queries, mutations, extractFromText.
    cbn [operations]. rewrite !filter_app.
    pose proof (parseOperationsFromType_type (split newline s) "Query" query)
      as Q.
    pose proof (parseOperationsFromType_type (split newline s) "Mutation"
                  mutation) as M.
    split.
    - rewrite filter_all, filter_none; [apply app_nil_r | |].
      + eapply Forall_impl; [|exact M].
        intros o E. unfold hasOperationType. now rewrite E.
      + eapply Forall_impl; [|exact Q].
        intros o E. unfold hasOperationType. now rewrite E.
    - rewrite filter_none, filter_all; [reflexivity | |].
      + eapply Forall_impl; [|exact M].
        intros o E. unfold hasOperationType. now rewrite E.
      + eapply Forall_impl; [|exact Q].
        intros o E. unfold hasOperationType. now rewrite E. }
  split.
  - unfold extract.
    destruct (negb (truthy schema) || negb (typeofIsString schema));
      [reflexivity|].
    destruct schema; try reflexivity.
    destruct (T s) as [-> ->]. reflexivity.
  - intros s -> Hs. rewrite (extract_text s Hs). apply T.
Qed.

Lemma queries_then_mutations_witness :
  queries (extract (JsString widgetSchema)) = [widgetOperation None]
  /\ mutations (extract (JsString widgetSchema)) = [].
Proof.
  destruct (proj2 (queries_then_mutations (JsString widgetSchema))
              widgetSchema eq_refl) as [Q M].
  - discriminate.
  - rewrite Q, M. split; vm_compute; reflexivity.
Defined.

(* ================================================================= *)
(** ** Expanding and collapsing *)

Module JsSetFacts.

Lemma has_app (s1 s2 : JsSet.t) (y : string) :
  JsSet.has (s1 ++ s2)%list y = JsSet.has s1 y || JsSet.has s2 y.
Proof. apply existsb_app. Qed.

Lemma has_delete (s : JsSet.t) (x y : string) :
  JsSet.has (JsSet.delete s x) y = JsSet.has s y && negb (String.eqb x y).
Proof.
  unfold JsSet.has, JsSet.delete.
  induction s as [|z s IH]; [reflexivity|].
  cbn [filter existsb].
  destruct (String.eqb x z) eqn:Exz; cbn [negb existsb].
  - rewrite IH. apply String.eqb_eq in Exz. subst z.
    rewrite (String.eqb_sym y x).
    now destruct (String.eqb x y); rewrite ?andb_false_r, ?andb_true_r.
  - rewrite IH. destruct (String.eqb y z) eqn:Eyz; [|reflexivity].
    apply String.eqb_eq in Eyz. subst z. cbn [orb].
    now rewrite Exz.
Qed.

Lemma has_In (s : JsSet.t) (y : string) : JsSet.has s y = true <-> In y s.
Proof.
  unfold JsSet.has. rewrite existsb_exists. split.
  - intros (z & Hz & E). apply String.eqb_eq in E. now subst.
  - intros H. exists y. split; [exact H | apply String.eqb_refl].
Qed.

Lemma delete_absent (s : JsSet.t) (x : string) :
  JsSet.has s x = false -> JsSet.delete s x = s.
Proof.
  unfold JsSet.has, JsSet.delete.
  induction s as [|z s IH]; [reflexivity|].
  cbn [existsb filter]. intros H. apply orb_false_iff in H.
  destruct H as [Hz Hs]. now rewrite Hz, (IH Hs).
Qed.

End JsSetFacts.

Lemma has_toggle (s : JsSet.t) (x y : string) :
  JsSet.has (toggle s x) y
  = if String.eqb x y then negb (JsSet.has s y) else JsSet.has s y.
Proof.
  unfold toggle. destruct (JsSet.has s x) eqn:Hx.
  - rewrite JsSetFacts.has_delete.
    destruct (String.eqb x y) eqn:E.
    + apply String.eqb_eq in E. subst y. now rewrite Hx.
    + apply andb_true_r.
  - unfold JsSet.add. rewrite Hx, JsSetFacts.has_app.
    unfold JsSet.has at 2. cbn [existsb]. rewrite orb_false_r.
    rewrite (String.eqb_sym y x).
    destruct (String.eqb x y) eqn:E.
    + apply String.eqb_eq in E. subst y. now rewrite Hx.
    + apply orb_false_r.
Qed.

(** X6: A toggle flips the membership of the toggled name and of no other
    name; toggling the same name twice leaves every membership as it
    was; a set without duplicates stays without duplicates; and adding
    a name and toggling it again gives back the very same set. *)
Theorem toggle_flips_one_name (s : JsSet.t) (x : string) :
  (forall y, JsSet.has (toggle s x) y
             = if String.eqb x y then negb (JsSet.has s y)
               else JsSet.has s y)
  /\ (forall y, JsSet.has (toggle (toggle s x) x) y = JsSet.has s y)
  /\ (NoDup s -> NoDup (toggle s x))
  /\ (JsSet.has s x = false -> toggle (toggle s x) x = s).
Proof.
  split; [apply has_toggle|]. split; [|split].
  - intros y. rewrite !has_toggle. destruct (String.eqb x y); [|reflexivity].
    apply negb_involutive.
  - intros N. unfold toggle. destruct (JsSet.has s x) eqn:Hx.
    + now apply NoDup_filter.
    + unfold JsSet.add. rewrite Hx.
      apply NoDup_app; [exact N | repeat constructor; intros [] |].
      intros z Hz [<- | []]. apply JsSetFacts.has_In in Hz. congruence.
  - intros Hx. unfold toggle at 2. rewrite Hx.
    unfold toggle, JsSet.add. rewrite Hx, JsSetFacts.has_app.
    unfold JsSet.has at 2. cbn [existsb].
    rewrite String.eqb_refl, orb_true_r.
    unfold JsSet.delete. rewrite filter_app. cbn [filter].
    rewrite String.eqb_refl. cbn [negb].
    fold (JsSet.delete s x).
    now rewrite (JsSetFacts.delete_absent s x Hx), app_nil_r.
Qed.

Lemma toggle_flips_one_name_witness :
  NoDup (toggle ["queries"; "types"] "mutations")
  /\ toggle (toggle ["queries"; "types"] "mutations") "mutations"
     = ["queries"; "types"].
Proof.
  destruct (toggle_flips_one_name ["queries"; "types"] "mutations")
    as (_ & _ & N & R).
  split; [apply N | apply R; reflexivity].
  repeat constructor; cbn; intuition discriminate.
Defined.

(** X7: The keys of the expandable entries are distinct for distinct pairs
    of a prefix ([query], [mutation], [type]) and a name; so toggling
    one entry with [toggleOperation] changes the expansion of no entry
    with another prefix or another name, and changes neither the
    expanded sections nor the copied endpoint. *)
Theorem expansion_keys_distinct :
  (forall p1 p2 n1 n2,
      In p1 expansionPrefixes -> In p2 expansionPrefixes ->
      expansionKey p1 n1 = expansionKey p2 n2 -> p1 = p2 /\ n1 = n2)
  /\ (forall st p1 p2 n1 n2,
         In p1 expansionPrefixes -> In p2 expansionPrefixes ->
         (p1 <> p2 \/ n1 <> n2) ->
         let st' := toggleOperation st (expansionKey p1 n1) in
         JsSet.has (expandedOperations st') (expansionKey p2 n2)
         = JsSet.has (expandedOperations st) (expansionKey p2 n2)
         /\ expandedSections st' = expandedSections st
         /\ copiedEndpoint st' = copiedEndpoint st).
Proof.
  assert (Inj : forall p1 p2 n1 n2,
             In p1 expansionPrefixes -> In p2 expansionPrefixes ->
             expansionKey p1 n1 = expansionKey p2 n2 -> p1 = p2 /\ n1 = n2).
  { intros p1 p2 n1 n2 H1 H2. unfold expansionKey. cbn in H1, H2.
    destruct H1 as [<- | [<- | [<- | []]]];
      destruct H2 as [<- | [<- | [<- | []]]];
      cbn [append]; intros E; try discriminate;
      injection E as ->; now split. }
  split; [exact Inj|].
  intros st p1 p2 n1 n2 H1 H2 D st'. subst st'.
  cbn [toggleOperation expandedOperations expandedSections copiedEndpoint].
  split; [|now split].
  rewrite has_toggle.
  destruct (String.eqb (expansionKey p1 n1) (expansionKey p2 n2)) eqn:E;
    [|reflexivity].
  apply String.eqb_eq in E. destruct (Inj _ _ _ _ H1 H2 E) as [-> ->].
  destruct D as [D | D]; now elim D.
Qed.

Lemma expansion_keys_distinct_witness :
  let st := toggleOperation initialViewState (expansionKey "query" "user") in
  JsSet.has (expandedOperations st) (expansionKey "query" "user") = true
  /\ JsSet.has (expandedOperations st) (expansionKey "mutation" "user")
     = false.
Proof.
  intros st. split; [reflexivity|].
  destruct (proj2 expansion_keys_distinct initialViewState
              "query" "mutation" "user" "user") as (E & _ & _).
  - cbn. tauto.
  - cbn. tauto.
  - left. discriminate.
  - exact E.
Defined.

(* ================================================================= *)
(** ** The order of the operations *)

Lemma Subseq_nil_l {A : Type} (ys : list A) : Subseq [] ys.
Proof. induction ys; now constructor. Qed.

Lemma Subseq_app_r {A : Type} (xs ys zs : list A) :
  Subseq xs ys -> Subseq xs (ys ++ zs).
Proof.
  induction 1; cbn [app]; try now constructor.
  apply Subseq_nil_l.
Qed.

Lemma Subseq_snoc {A : Type} (xs ys : list A) (x : A) :
  Subseq xs ys -> Subseq (xs ++ [x]) (ys ++ [x]).
Proof. induction 1; cbn [app]; now repeat constructor. Qed.

Lemma Subseq_length {A : Type} (xs ys : list A) :
  Subseq xs ys -> List.length xs <= List.length ys.
Proof. induction 1; cbn [List.length]; lia. Qed.

Lemma opLoop_order typeName operationType (lines : list string) :
  forall st seen,
    Subseq (map op_content (typeOps st)) seen ->
    Subseq (map op_content (typeOps (opLoop typeName operationType lines st)))
           (seen ++ map trim lines).
Proof.
  induction lines as [|line rest IH]; intros st seen H.
  - cbn [map opLoop]. now rewrite app_nil_r.
  - cbn [opLoop map].
    assert (S1 : Subseq (map op_content
                    (typeOps (fst (opStep typeName operationType st line))))
                  (seen ++ [trim line])).
    { destruct (opStep_ops typeName operationType st line)
        as [E | (o & (cd & r & m & _ & ->) & E)]; rewrite E.
      - now apply Subseq_app_r.
      - rewrite map_app. cbn [map op_content operationOfMatch].
        now apply Subseq_snoc. }
    replace (seen ++ trim line :: map trim rest)%list
      with ((seen ++ [trim line]) ++ map trim rest)%list
      by (now rewrite <- app_assoc).
    destruct (opStep typeName operationType st line) as [st' [|]];
      cbn [fst] in S1.
    + now apply IH.
    + now apply Subseq_app_r.
Qed.

(** X8: The operations of one pass are in the order of the source: their
    contents are the trimmed lines of the input with some lines left
    out.  In particular a pass extracts at most one operation per
    line. *)
Theorem operations_in_source_order (lines : list string)
    (typeName : string) (operationType : OperationType) :
  Subseq (map op_content
            (parseOperationsFromType lines typeName operationType))
         (map trim lines)
  /\ List.length (parseOperationsFromType lines typeName operationType)
     <= List.length lines.
Proof.
  assert (S : Subseq (map op_content
                 (parseOperationsFromType lines typeName operationType))
               (map trim lines)).
  { unfold parseOperationsFromType.
    apply (opLoop_order typeName operationType lines initialOpState []).
    constructor. }
  split; [exact S|].
  apply Subseq_length in S. now rewrite !length_map in S.
Qed.

(* ================================================================= *)
(** ** Only the first root block is read *)

Section FirstBlock.

Variable typeName : string.
Variable operationType : OperationType.

Lemma opLoop_app (a b : list string) :
  forall st,
    opLoop typeName operationType (a ++ b) st
    = if opStops typeName operationType a st
      then opLoop typeName operationType a st
      else opLoop typeName operationType b
             (opLoop typeName operationType a st).
Proof.
  induction a as [|line a IH]; intros st; [reflexivity|].
  cbn [app opLoop opStops].
  destruct (opStep typeName operationType st line) as [st' [|]];
    [apply IH | reflexivity].
Qed.

Lemma opStops_app (a b : list string) :
  forall st,
    opStops typeName operationType (a ++ b) st
    = opStops typeName operationType a st
      || opStops typeName operationType b
           (opLoop typeName operationType a st).
Proof.
  induction a as [|line a IH]; intros st; [reflexivity|].
  cbn [app opLoop opStops].
  destruct (opStep typeName operationType st line) as [st' [|]];
    [apply IH | reflexivity].
Qed.

Lemma opStops_outside lines :
  forall st,
    inTypeBlock st = false ->
    Forall (fun l => isRootHeader typeName (trim l) = false) lines ->
    opStops typeName operationType lines st = false.
Proof.
  induction lines as [|line rest IH]; intros st Hin Hl; [reflexivity|].
  inversion Hl as [|? ? Hh Hrest]; subst.
  destruct (opStep_outside typeName operationType st line Hin Hh)
    as (_ & Hin' & Hnext).
  cbn [opStops].
  destruct (opStep typeName operationType st line) as [st' flow].
  cbn [fst snd] in *. subst flow. now apply IH.
Qed.

Lemma inTypeBlock_opFinalize st bc isDesc :
  inTypeBlock (opFinalize st bc isDesc) = inTypeBlock st.
Proof.
  unfold opFinalize.
  now destruct (inDescription st && negb isDesc && (0 <? bc)%Z).
Qed.

Lemma inTypeBlock_opFieldLine st isDesc line trimmed :
  inTypeBlock (opFieldLine operationType st isDesc line trimmed)
  = inTypeBlock st.
Proof.
  unfold opFieldLine.
  destruct ((0 <? braceCount st)%Z && negb isDesc); [|reflexivity].
  destruct (matchAt fieldPattern trimmed) as [[rest m]|]; [reflexivity|].
  now destruct (negb (isEmpty (currentDescription st))
                && negb (startsWith "#" trimmed)
                && negb (startsWith tripleQuote trimmed)).
Qed.

(** A line without braces inside the block keeps the pass inside, at
    the same depth. *)
Lemma opStep_inside st line :
  inTypeBlock st = true ->
  isRootHeader typeName (trim line) = false ->
  includes "{" line = false -> includes "}" line = false ->
  snd (opStep typeName operationType st line) = Next
  /\ inTypeBlock (fst (opStep typeName operationType st line)) = true
  /\ braceCount (fst (opStep typeName operationType st line))
     = braceCount st.
Proof.
  intros Hin Hh Ho Hc. unfold opStep. rewrite Hh, Hin.
  destruct (isEmpty (trim line)).
  - unfold opEmptyLine.
    destruct (inDescription st); cbn [fst snd inTypeBlock braceCount];
      now repeat split.
  - unfold countClose, countOpen. rewrite Ho, Hc.
    destruct (isDescriptionLine (trim line) && (0 <? braceCount st)%Z);
      [now repeat split|].
    unfold opCloseBlock.
    change "}" with (char "}").
    rewrite (JsFacts.includes_char_trim "}") by reflexivity.
    change (char "}") with "}". rewrite Hc, andb_false_r. cbn [fst snd].
    rewrite inTypeBlock_opFieldLine, inTypeBlock_opFinalize.
    rewrite braceCount_opFieldLine, braceCount_opFinalize.
    now repeat split.
Qed.

Lemma opLoop_inside lines :
  forall st,
    inTypeBlock st = true ->
    Forall (fun l => isRootHeader typeName (trim l) = false
                     /\ includes "{" l = false /\ includes "}" l = false)
           lines ->
    opStops typeName operationType lines st = false
    /\ inTypeBlock (opLoop typeName operationType lines st) = true
    /\ braceCount (opLoop typeName operationType lines st) = braceCount st.
Proof.
  induction lines as [|line rest IH]; intros st Hin Hl; [now repeat split|].
  inversion Hl as [|? ? (Hh & Ho & Hc) Hrest]; subst.
  destruct (opStep_inside st line Hin Hh Ho Hc) as (Hn & Hin' & Hb).
  cbn [opStops opLoop].
  destruct (opStep typeName operationType st line) as [st' flow].
  cbn [fst snd] in *. subst flow.
  destruct (IH st' Hin' Hrest) as (E1 & E2 & E3).
  rewrite E1, E2, E3. now repeat split.
Qed.

(** At depth one, a line with a closing brace and no opening brace
    leaves the loop. *)
Lemma opStep_closing st line :
  inTypeBlock st = true -> braceCount st = 1%Z ->
  isRootHeader typeName (trim line) = false ->
  includes "{" line = false -> includes "}" line = true ->
  snd (opStep typeName operationType st line) = Break.
Proof.
  intros Hin Hb Hh Ho Hc.
  assert (Hc' : includes "}" (trim line) = true).
  { change "}" with (char "}").
    now rewrite (JsFacts.includes_char_trim "}") by reflexivity. }
  assert (He : isEmpty (trim line) = false).
  { destruct (trim line); [discriminate | reflexivity]. }
  unfold opStep. rewrite He, Hh, Hin.
  unfold countClose, countOpen. rewrite Ho, Hc, Hb.
  cbn [Z.sub Z.add Z.opp Z.pos_sub Z.ltb Z.compare]. rewrite andb_false_r.
  unfold opCloseBlock.
  rewrite braceCount_opFieldLine, braceCount_opFinalize, Hc'.
  reflexivity.
Qed.

End FirstBlock.

(** Why no line of the block may pass the header test: a line of the
    block that is itself a header (without a brace) resets the depth,
    the closing brace then takes it below zero, the loop does not
    leave, and the block after it is read. *)
Example header_text_inside_block_reopens_it :
  map op_name
    (parseOperationsFromType
       [ "type Query {"; "  type Query is documented here"; "  a: A"; "}";
         "type Query {"; "  b: B"; "}" ] "Query" query)
  = ["b"]
  /\ map op_name
       (parseOperationsFromType
          [ "type Query {"; "  type Query is documented here"; "  a: A";
            "}" ] "Query" query)
     = [].
Proof. split; vm_compute; reflexivity. Qed.

(** X9: Once a root block is closed, the pass reads no further.  Let
    the input be: lines that do not pass the header test of the root
    block; then a line that passes it and holds an opening brace; then
    lines that do not pass it and hold no brace; then a line that does
    not pass it, holds a closing brace and holds no opening brace.
    Whatever lines come after that line (a second block of the same
    root type, say), the pass returns what it returns without them. *)
Theorem first_root_block_only (typeName : string)
    (operationType : OperationType)
    (before : list string) (header : string) (body : list string)
    (closing : string) (after : list string) :
  Forall (fun l => isRootHeader typeName (trim l) = false) before ->
  isRootHeader typeName (trim header) = true ->
  includes "{" header = true ->
  Forall (fun l => isRootHeader typeName (trim l) = false
                   /\ includes "{" l = false /\ includes "}" l = false)
         body ->
  isRootHeader typeName (trim closing) = false ->
  includes "{" closing = false -> includes "}" closing = true ->
  parseOperationsFromType
    (before ++ header :: body ++ closing :: after) typeName operationType
  = parseOperationsFromType
      (before ++ header :: body ++ [closing]) typeName operationType.
Proof.
  intros Hbefore Hheader Hopen Hbody Hclosing Hco Hcc.
  unfold parseOperationsFromType.
  replace (before ++ header :: body ++ closing :: after)%list
    with ((before ++ header :: body ++ [closing]) ++ after)%list.
  2:{ rewrite <- !app_assoc. cbn [app]. rewrite <- !app_assoc.
      reflexivity. }
  rewrite opLoop_app.
  assert (S : opStops typeName operationType
                (before ++ header :: body ++ [closing]) initialOpState
              = true); [|now rewrite S].
  rewrite opStops_app.
  rewrite (opStops_outside typeName operationType before) by easy.
  cbn [orb].
  destruct (opLoop_outside typeName operationType before initialOpState
              eq_refl Hbefore) as [_ Hout].
  set (st0 := opLoop typeName operationType before initialOpState) in *.
  cbn [opStops]. unfold opStep at 1.
  rewrite (isRootHeader_nonempty _ _ Hheader), Hheader.
  set (st1 := opHeaderLine st0 header).
  assert (H1 : inTypeBlock st1 = true) by reflexivity.
  assert (B1 : braceCount st1 = 1%Z).
  { subst st1. cbn [opHeaderLine braceCount]. unfold countOpen.
    now rewrite Hopen. }
  rewrite opStops_app.
  destruct (opLoop_inside typeName operationType body st1 H1 Hbody)
    as (E1 & E2 & E3).
  rewrite E1. cbn [orb opStops].
  rewrite B1 in E3.
  pose proof (opStep_closing typeName operationType _ closing E2 E3
                Hclosing Hco Hcc) as Hbreak.
  destruct (opStep typeName operationType
              (opLoop typeName operationType body st1) closing)
    as [st' flow].
  cbn [snd] in Hbreak. now subst flow.
Qed.

Lemma first_root_block_only_witness :
  map op_name
    (parseOperationsFromType
       [ "type Query {"; "  a: A"; "}"; "type Query {"; "  b: B"; "}" ]
       "Query" query)
  = ["a"].
Proof.
  assert (B : Forall (fun l => isRootHeader "Query" (trim l) = false
                              /\ includes "{" l = false
                              /\ includes "}" l = false) ["  a: A"])
    by (repeat constructor).
  pose proof (first_root_block_only "Query" query [] "type Query {"
                ["  a: A"] "}" ["type Query {"; "  b: B"; "}"]
                (Forall_nil _) eq_refl eq_refl B eq_refl eq_refl eq_refl)
    as E.
  cbn [app] in E. rewrite E. vm_compute. reflexivity.
Defined.

(* ================================================================= *)
(** ** Comments above a field *)

Section HashComments.

Variable typeName : string.
Variable operationType : OperationType.

Lemma hash_line_facts (t : string) :
  startsWith "#" t = true ->
  isEmpty t = false /\ isRootHeader typeName t = false
  /\ isDescriptionLine t = true /\ isSingleLineBlockString t = false.
Proof.
  destruct t as [|a t]; [discriminate|]. cbn [startsWith]. intros H.
  apply andb_true_iff in H. destruct H as [H _].
  apply Ascii.eqb_eq in H. subst a.
  split; [reflexivity|]. split; [reflexivity|]. split.
  - unfold isDescriptionLine. apply orb_true_r.
  - unfold isSingleLineBlockString.
    replace (startsWith tripleQuote (String "#" t)) with false
      by reflexivity.
    now rewrite andb_false_r.
Qed.

Lemma isHashComment_inv (line : string) :
  isHashComment line = true ->
  startsWith "#" (trim line) = true
  /\ includes "{" line = false /\ includes "}" line = false.
Proof.
  unfold isHashComment. intros H.
  apply andb_true_iff in H. destruct H as [H Hc].
  apply andb_true_iff in H. destruct H as [Hs Ho].
  apply negb_true_iff in Ho, Hc. now repeat split.
Qed.

(** A comment line at positive depth is buffered and the loop goes
    on. *)
Lemma opStep_hash st line :
  inTypeBlock st = true -> (0 <? braceCount st)%Z = true ->
  isHashComment line = true ->
  opStep typeName operationType st line
  = (opDescriptionLine st (braceCount st) (trim line), Next).
Proof.
  intros Hin Hd Hh. apply isHashComment_inv in Hh.
  destruct Hh as (Hs & Ho & Hc).
  destruct (hash_line_facts _ Hs) as (He & Hr & Hdesc & _).
  unfold opStep. rewrite He, Hr, Hin, Hdesc.
  unfold countClose, countOpen. now rewrite Ho, Hc, Hd.
Qed.

(** While a description is pending, empty lines and comment lines
    only add to the buffer. *)
Lemma opLoop_pending (ls : list string) :
  forall st,
    inTypeBlock st = true -> (0 <? braceCount st)%Z = true ->
    inDescription st = true ->
    Forall (fun l => isEmpty (trim l) = true \/ isHashComment l = true) ls ->
    let st' := opLoop typeName operationType ls st in
    opStops typeName operationType ls st = false
    /\ typeOps st' = typeOps st /\ inTypeBlock st' = true
    /\ braceCount st' = braceCount st /\ inDescription st' = true
    /\ descriptionLines st'
       = (descriptionLines st ++ pendingTexts ls)%list.
Proof.
  induction ls as [|l ls IH]; intros st Hin Hd Hp Hl; cbn zeta.
  - cbn [opLoop opStops pendingTexts]. rewrite app_nil_r.
    now repeat split.
  - inversion Hl as [|? ? Hl1 Hls]; subst. cbn [opLoop opStops pendingTexts].
    destruct Hl1 as [He | Hh].
    + assert (E : opStep typeName operationType st l = (st, Next)).
      { unfold opStep, opEmptyLine. now rewrite He, Hp. }
      rewrite E, He. cbn [app]. now apply IH.
    + rewrite (opStep_hash st l Hin Hd Hh).
      pose proof (proj1 (isHashComment_inv _ Hh)) as Hs.
      destruct (hash_line_facts _ Hs) as (He & _ & _ & Hsl).
      set (st1 := opDescriptionLine st (braceCount st) (trim l)).
      assert (F : inTypeBlock st1 = true /\ braceCount st1 = braceCount st
                  /\ inDescription st1 = true /\ typeOps st1 = typeOps st
                  /\ descriptionLines st1
                     = (descriptionLines st
                        ++ (if isEmpty (descriptionText (trim l)) then []
                            else [descriptionText (trim l)]))%list).
      { subst st1. unfold opDescriptionLine.
        cbn [inTypeBlock braceCount inDescription typeOps descriptionLines].
        rewrite Hsl, Hin.
        destruct (isEmpty (descriptionText (trim l)));
          rewrite ?app_nil_r; now repeat split. }
      destruct F as (F1 & F2 & F3 & F4 & F5).
      destruct (IH st1 F1) as (E1 & E2 & E3 & E4 & E5 & E6);
        [now rewrite F2 | exact F3 | exact Hls |].
      rewrite E1, E2, E3, E4, E5, E6, F2, F4, F5, He, <- app_assoc.
      now repeat split.
Qed.

(** The first line that is not a description line ends the pending
    description, and a field on it takes the buffered texts. *)
Lemma opStep_field_after_description st field rest m :
  inTypeBlock st = true -> inDescription st = true ->
  isEmpty (trim field) = false ->
  isRootHeader typeName (trim field) = false ->
  isDescriptionLine (trim field) = false ->
  (0 <? countClose field (countOpen field (braceCount st)))%Z = true ->
  matchAt fieldPattern (trim field) = Some (rest, m) ->
  typeOps (fst (opStep typeName operationType st field))
  = (typeOps st
     ++ [operationOfMatch operationType
           (trim (join " " (descriptionLines st))) field m])%list.
Proof.
  intros Hin Hp He Hh Hd Hb Hm. unfold opStep.
  rewrite He, Hh, Hin, Hd. cbn [andb].
  rewrite typeOps_opCloseBlock.
  unfold opFinalize. rewrite Hp, Hb. cbn [andb negb].
  unfold opFieldLine. cbn [braceCount currentDescription typeOps].
  now rewrite Hb, Hm.
Qed.

End HashComments.

Lemma opLoop_single typeName operationType (line : string) (st : OpState) :
  opLoop typeName operationType [line] st
  = fst (opStep typeName operationType st line).
Proof.
  cbn [opLoop].
  now destruct (opStep typeName operationType st line) as [st' [|]].
Qed.

(** Why the comment lines may hold no brace: the closing brace in a
    comment at depth one is counted, the comment line ends the block
    and the field below it is not read. *)
Example brace_in_comment_ends_block :
  parseOperationsFromType
    [ "type Query {"; "  # returns the } of it"; "  widget: Widget"; "}" ]
    "Query" query
  = [].
Proof. vm_compute. reflexivity. Qed.

(** X10: Comment lines directly above a field are its description.
    Let the pass be inside the root block at positive depth.  After a
    line whose trimmed text starts with [#] and that holds no brace,
    followed by any number of lines that are each empty or such a
    comment line, take a line that is not empty, does not pass the
    header test of the root block, is no description line, on whose
    trimmed text the field pattern matches, and after whose own braces
    (counted by presence) the depth is still positive.  These lines
    add exactly one operation, the one of that field, and its
    description is the texts buffered before, followed by the
    non-empty texts of the comment lines in order (the text of a
    comment line is its trimmed text without the leading [#] and
    without a trailing block-string marker, trimmed), joined with
    single spaces and trimmed; it is absent when that is empty.  An
    empty line between the comments and the field does not detach
    them. *)
Theorem hash_comments_are_attached (typeName : string)
    (operationType : OperationType) (st : OpState)
    (first : string) (more : list string) (field rest : string)
    (m : captures) :
  inTypeBlock st = true -> (0 < braceCount st)%Z ->
  isHashComment first = true ->
  Forall (fun l => isEmpty (trim l) = true \/ isHashComment l = true) more ->
  isEmpty (trim field) = false ->
  isRootHeader typeName (trim field) = false ->
  isDescriptionLine (trim field) = false ->
  (0 < countClose field (countOpen field (braceCount st)))%Z ->
  matchAt fieldPattern (trim field) = Some (rest, m) ->
  exists o,
    typeOps (opLoop typeName operationType (first :: more ++ [field]) st)
    = (typeOps st ++ [o])%list
    /\ o = operationOfMatch operationType
             (trim (join " " (descriptionLines st
                              ++ pendingTexts (first :: more))))
             field m
    /\ op_description o
       = orUndefined (trim (join " " (descriptionLines st
                                      ++ pendingTexts (first :: more)))).
Proof.
  intros Hin Hd Hfirst Hmore He Hh Hdesc Hb Hm.
  apply Z.ltb_lt in Hd, Hb.
  eexists. split; [|split; [reflexivity|]].
  2:{ cbn [op_description operationOfMatch]. now rewrite JsFacts.trim_idem. }
  assert (P : Forall (fun l => isEmpty (trim l) = true
                               \/ isHashComment l = true) (first :: more))
    by (constructor; [now right | exact Hmore]).
  change (first :: more ++ [field])%list
    with ((first :: more) ++ [field])%list.
  rewrite opLoop_app.
  (* the comment lines *)
  assert (Q : let st' := opLoop typeName operationType (first :: more) st in
              opStops typeName operationType (first :: more) st = false
              /\ typeOps st' = typeOps st /\ inTypeBlock st' = true
              /\ braceCount st' = braceCount st /\ inDescription st' = true
              /\ descriptionLines st'
                 = (descriptionLines st ++ pendingTexts (first :: more))%list).
  { cbn zeta. cbn [opLoop opStops].
    rewrite (opStep_hash typeName operationType st first Hin Hd Hfirst).
    pose proof (proj1 (isHashComment_inv _ Hfirst)) as Hs.
    destruct (hash_line_facts typeName _ Hs) as (He1 & _ & _ & Hsl).
    set (st1 := opDescriptionLine st (braceCount st) (trim first)).
    destruct (opLoop_pending typeName operationType more st1)
      as (E1 & E2 & E3 & E4 & E5 & E6).
    - exact Hin.
    - exact Hd.
    - subst st1. unfold opDescriptionLine. cbn [inDescription].
      now rewrite Hsl.
    - exact Hmore.
    - rewrite E1, E2, E3, E4, E5, E6. subst st1.
      unfold opDescriptionLine.
      cbn [typeOps braceCount descriptionLines pendingTexts].
      rewrite He1.
      destruct (isEmpty (descriptionText (trim first)));
        rewrite <- ?app_assoc; now repeat split. }
  cbn zeta in Q. destruct Q as (S0 & Q1 & Q2 & Q3 & Q4 & Q5).
  rewrite S0, opLoop_single.
  rewrite <- Q3 in Hb.
  rewrite (opStep_field_after_description typeName operationType _
             field rest m Q2 Q4 He Hh Hdesc Hb Hm).
  now rewrite Q1, Q5.
Qed.

Lemma hash_comments_are_attached_witness :
  let st := fst (opStep "Query" query initialOpState "type Query {") in
  exists o,
    typeOps (opLoop "Query" query
               [ "  # Fetches a widget"; EmptyString; "  #"; "  # by id";
                 EmptyString; "  widget(id: ID!): Widget" ] st)
    = [o]
    /\ op_description o = Some "Fetches a widget by id".
Proof.
  intros st.
  destruct (hash_comments_are_attached "Query" query st
              "  # Fetches a widget"
              [EmptyString; "  #"; "  # by id"; EmptyString]
              "  widget(id: ID!): Widget" EmptyString
              [(4, EmptyString); (3, "Widget"); (2, "(id: ID!)");
               (1, "widget")])
    as (o & E & _ & D).
  - reflexivity.
  - reflexivity.
  - reflexivity.
  - repeat constructor; (now left) || (now right).
  - reflexivity.
  - reflexivity.
  - reflexivity.
  - reflexivity.
  - reflexivity.
  - exists o. split; [exact E | exact D].
Defined.

(* ================================================================= *)
(** ** Descriptions and contents of the type pass *)

Lemma keyword_line_facts (t : string) :
  startsWithKeyword t = true ->
  isEmpty t = false /\ isDescriptionLine t = false.
Proof.
  destruct t as [|a t]; [discriminate|]. intros H.
  split; [reflexivity|]. unfold isDescriptionLine, tripleQuote.
  cbn [startsWith].
  destruct (Ascii.eqb dquote a) eqn:E1.
  { apply Ascii.eqb_eq in E1. subst a. discriminate. }
  destruct (Ascii.eqb "#" a) eqn:E2.
  { apply Ascii.eqb_eq in E2. subst a. discriminate. }
  reflexivity.
Qed.

(** Before a definition, empty lines are passed over and description
    lines add their text and a space to the buffer. *)
Lemma tyLoop_descriptions (ds : list string) :
  forall st,
    inType st = false ->
    Forall (fun l => isEmpty (trim l) = true
                     \/ isDescriptionLine (trim l) = true) ds ->
    fold_left tyStep ds st
    = {| typeDefs := typeDefs st; currentType := currentType st;
         tyDescription := tyDescription st ++ bufferedDescription ds;
         tyBraceCount := tyBraceCount st; inType := inType st;
         typeContent := typeContent st |}.
Proof.
  induction ds as [|l ds IH]; intros st Hi Hl.
  - cbn [fold_left bufferedDescription].
    rewrite JsFacts.append_empty_r. now destruct st.
  - inversion Hl as [|? ? Hl1 Hds]; subst.
    cbn [fold_left bufferedDescription].
    destruct (isEmpty (trim l)) eqn:He.
    + assert (E : tyStep st l = st) by (unfold tyStep; now rewrite He).
      rewrite E. now apply IH.
    + destruct Hl1 as [Hl1 | Hd]; [discriminate|].
      assert (E : tyStep st l
                  = {| typeDefs := typeDefs st; currentType := currentType st;
                       tyDescription :=
                         tyDescription st ++ descriptionText (trim l) ++ " ";
                       tyBraceCount := tyBraceCount st; inType := inType st;
                       typeContent := typeContent st |}).
      { unfold tyStep. now rewrite He, Hd, Hi. }
      rewrite E, IH; [|exact Hi | exact Hds].
      cbn [typeDefs currentType tyDescription tyBraceCount inType typeContent].
      now rewrite !JsFacts.append_assoc.
Qed.

(** The header of a definition that is not reserved pushes the open
    definition and opens a new one with the buffered description. *)
Lemma tyStep_header st header rest m :
  startsWithKeyword (trim header) = true ->
  matchAt typeHeaderPattern (trim header) = Some (rest, m) ->
  isReserved (orEmpty (capture 2 m)) = false ->
  tyStep st header
  = {| typeDefs := pushCurrent st;
       currentType :=
         Some {| ty_name := orEmpty (capture 2 m);
                 ty_kind := orEmpty (capture 1 m);
                 ty_description := orUndefined (trim (tyDescription st));
                 ty_content := EmptyString |};
       tyDescription := EmptyString;
       tyBraceCount := countClose header (countOpen header 0);
       inType := true;
       typeContent := [header] |}.
Proof.
  intros Hk Hm Hr. destruct (keyword_line_facts _ Hk) as [He Hd].
  unfold tyStep, tyHeaderLine. now rewrite He, Hd, Hk, Hm, Hr.
Qed.

Lemma typeDefs_pushCurrent st x : In x (typeDefs st) -> In x (pushCurrent st).
Proof.
  unfold pushCurrent. destruct (currentType st); [|easy].
  intros H. apply in_or_app. now left.
Qed.

(** A definition that was pushed stays in the output. *)
Lemma tyStep_typeDefs st line x :
  In x (typeDefs st) -> In x (typeDefs (tyStep st line)).
Proof.
  intros H. unfold tyStep.
  destruct (isEmpty (trim line)); [exact H|].
  destruct (isDescriptionLine (trim line) && negb (inType st)); [exact H|].
  destruct (startsWithKeyword (trim line)).
  - unfold tyHeaderLine.
    destruct (matchAt typeHeaderPattern (trim line)) as [[rest m]|];
      [|exact H].
    destruct (isReserved (orEmpty (capture 2 m))); [exact H|].
    now apply typeDefs_pushCurrent.
  - destruct (inType st); [|exact H].
    destruct (currentType st) as [t|]; [|exact H].
    unfold tyBodyLine.
    match goal with |- context [if ?b then _ else _] => destruct b end;
      cbn [typeDefs]; [apply in_or_app; now left | exact H].
Qed.

Lemma tyLoop_typeDefs lines :
  forall st x, In x (typeDefs st) ->
               In x (pushCurrent (fold_left tyStep lines st)).
Proof.
  induction lines as [|line rest IH]; intros st x H; cbn [fold_left].
  - now apply typeDefs_pushCurrent.
  - now apply IH, tyStep_typeDefs.
Qed.

(** A definition that is open is either still open after a line, or
    was pushed with some content. *)
Lemma tyStep_currentType st line t :
  currentType st = Some t ->
  currentType (tyStep st line) = Some t
  \/ exists content, In (finalize t content) (typeDefs (tyStep st line)).
Proof.
  intros Hc. unfold tyStep.
  destruct (isEmpty (trim line)); [now left|].
  destruct (isDescriptionLine (trim line) && negb (inType st)); [now left|].
  destruct (startsWithKeyword (trim line)).
  - unfold tyHeaderLine.
    destruct (matchAt typeHeaderPattern (trim line)) as [[rest m]|];
      [|now left].
    destruct (isReserved (orEmpty (capture 2 m))); [now left|].
    right. exists (typeContent st). cbn [typeDefs].
    unfold pushCurrent. rewrite Hc. apply in_or_app. right. now left.
  - destruct (inType st); [|now left]. rewrite Hc.
    unfold tyBodyLine.
    match goal with |- context [if ?b then _ else _] => destruct b end;
      cbn [typeDefs currentType]; [|now left].
    right. eexists. apply in_or_app. right. now left.
Qed.

(** No definition is lost: one that is open reaches the output. *)
Lemma tyLoop_currentType lines :
  forall st t,
    currentType st = Some t ->
    exists content,
      In (finalize t content) (pushCurrent (fold_left tyStep lines st)).
Proof.
  induction lines as [|line rest IH]; intros st t Hc; cbn [fold_left].
  - exists (typeContent st). unfold pushCurrent. rewrite Hc.
    apply in_or_app. right. now left.
  - destruct (tyStep_currentType st line t Hc) as [H | [content H]].
    + now apply IH.
    + exists content. now apply tyLoop_typeDefs.
Qed.

(** X11: Description lines above a definition are its description: after
    description lines ([#] comments and block strings written on one
    line alike) and empty lines at the head of the input, the header
    of a definition that is not reserved yields a definition of the
    output with the name and the kind of the header, whose description
    is the texts of the lines, each followed by a space, trimmed.
    Here a block string on one line is kept, and so is a description
    separated from the header by empty lines. *)
Theorem definition_description_is_attached (ds : list string)
    (header : string) (after : list string) (rest : string)
    (m : captures) :
  Forall (fun l => isEmpty (trim l) = true
                   \/ isDescriptionLine (trim l) = true) ds ->
  startsWithKeyword (trim header) = true ->
  matchAt typeHeaderPattern (trim header) = Some (rest, m) ->
  isReserved (orEmpty (capture 2 m)) = false ->
  exists t,
    In t (parseTypes (ds ++ header :: after))
    /\ ty_name t = orEmpty (capture 2 m)
    /\ ty_kind t = orEmpty (capture 1 m)
    /\ ty_description t = orUndefined (trim (bufferedDescription ds)).
Proof.
  intros Hds Hk Hm Hr. unfold parseTypes.
  rewrite fold_left_app. cbn [fold_left].
  rewrite (tyLoop_descriptions ds initialTypeState eq_refl Hds).
  rewrite (tyStep_header _ header rest m Hk Hm Hr).
  cbn [tyDescription initialTypeState append].
  match goal with
  | |- context [fold_left tyStep after ?st0] =>
      destruct (tyLoop_currentType after st0 _ eq_refl) as [content H]
  end.
  eexists. split; [exact H|]. now repeat split.
Qed.

Lemma definition_description_is_attached_witness :
  exists t,
    In t (parseTypes
            [ tripleQuote ++ "A date" ++ tripleQuote; EmptyString;
              "# in ISO 8601"; EmptyString; "scalar Date" ])
    /\ ty_name t = "Date"
    /\ ty_description t = Some "A date in ISO 8601".
Proof.
  destruct (definition_description_is_attached
              [ tripleQuote ++ "A date" ++ tripleQuote; EmptyString;
                "# in ISO 8601"; EmptyString ]
              "scalar Date" [] EmptyString [(2, "Date"); (1, "scalar")])
    as (t & Ht & Hn & _ & Hd).
  - repeat constructor; (now left) || (now right).
  - reflexivity.
  - reflexivity.
  - reflexivity.
  - exists t. split; [exact Ht | split; [exact Hn | exact Hd]].
Defined.

(** *** Contents *)

Lemma split_join (ls : list string) :
  ls <> [] -> Forall (fun l => includes nl l = false) ls ->
  split newline (join nl ls) = ls.
Proof.
  induction ls as [|x ls IH]; [easy|]. intros _ H.
  inversion H as [|? ? Hx Hls]; subst.
  destruct ls as [|y ls].
  - cbn [join]. now apply LineFacts.split_last.
  - change (join nl (x :: y :: ls)) with (x ++ nl ++ join nl (y :: ls)).
    rewrite LineFacts.split_line by exact Hx.
    now rewrite IH.
Qed.

Lemma Subseq_In {A : Type} (xs ys : list A) :
  Subseq xs ys -> forall x, In x xs -> In x ys.
Proof.
  induction 1 as [|xs y ys _ IH|x0 xs ys _ IH]; intros x Hx.
  - exact Hx.
  - right. now apply IH.
  - destruct Hx as [<- | Hx]; [now left | right; now apply IH].
Qed.

Lemma definitionHeader_finalize header t content :
  definitionHeader header t -> definitionHeader header (finalize t content).
Proof. intros (rest & m & d & H). now exists rest, m, d. Qed.

Lemma contentFrom_seen seen line t lines' :
  contentFrom seen t lines' -> contentFrom (seen ++ [line]) t lines'.
Proof.
  intros (header & more & E & D & S & F).
  exists header, more.
  split; [exact E | split; [exact D | split; [|exact F]]].
  now apply Subseq_app_r.
Qed.

Lemma contentFrom_finalize seen t content lines' :
  contentFrom seen t lines' -> contentFrom seen (finalize t content) lines'.
Proof.
  intros (header & more & E & D & S & F).
  exists header, more.
  split; [exact E | split; [|split; [exact S | exact F]]].
  now apply definitionHeader_finalize.
Qed.

Lemma contentInv_pushCurrent seen st :
  contentInv seen st ->
  Forall (fun t => exists lines',
            ty_content t = join nl lines' /\ contentFrom seen t lines')
         (pushCurrent st).
Proof.
  intros [Hd Hc]. unfold pushCurrent.
  destruct (currentType st) as [t|]; [|exact Hd].
  apply Forall_app. split; [exact Hd|].
  constructor; [|constructor].
  exists (typeContent st). split; [reflexivity|].
  now apply contentFrom_finalize, Hc.
Qed.

Lemma contentInv_seen seen line st :
  contentInv seen st ->
  Forall (fun t => exists lines',
            ty_content t = join nl lines'
            /\ contentFrom (seen ++ [line]) t lines')
         (typeDefs st).
Proof.
  intros [Hd _]. eapply Forall_impl; [|exact Hd].
  intros t (lines' & E & C). exists lines'. split; [exact E|].
  now apply contentFrom_seen.
Qed.

Lemma tyStep_contentInv seen st line :
  contentInv seen st -> contentInv (seen ++ [line]) (tyStep st line).
Proof.
  intros Inv.
  assert (Same : forall st',
             typeDefs st' = typeDefs st -> currentType st' = currentType st ->
             typeContent st' = typeContent st ->
             contentInv (seen ++ [line]) st').
  { intros st' E1 E2 E3. split.
    - rewrite E1. now apply contentInv_seen.
    - intros t Ht. rewrite E2 in Ht. rewrite E3.
      apply contentFrom_seen. now apply (proj2 Inv). }
  unfold tyStep.
  destruct (isEmpty (trim line)) eqn:He; [now apply Same|].
  destruct (isDescriptionLine (trim line) && negb (inType st));
    [now apply Same|].
  destruct (startsWithKeyword (trim line)).
  - unfold tyHeaderLine.
    destruct (matchAt typeHeaderPattern (trim line)) as [[rest m]|] eqn:M;
      [|now apply Same].
    destruct (isReserved (orEmpty (capture 2 m))) eqn:R; [now apply Same|].
    split; cbn [typeDefs currentType typeContent].
    + pose proof (contentInv_pushCurrent seen st Inv) as P.
      eapply Forall_impl; [|exact P].
      intros t (lines' & E & C). exists lines'. split; [exact E|].
      now apply contentFrom_seen.
    + intros t [= <-]. exists line, [].
      split; [reflexivity | split; [|split; [|constructor]]].
      * exists rest, m, (tyDescription st).
        split; [exact M | split; [exact R|]]. now repeat split.
      * apply (Subseq_snoc [] seen line), Subseq_nil_l.
  - destruct (inType st); [|now apply Same].
    destruct (currentType st) as [t|] eqn:Ht.
    2:{ split; cbn [typeDefs currentType typeContent];
          [now apply contentInv_seen | discriminate]. }
    assert (C : contentFrom (seen ++ [line]) t (typeContent st ++ [line])).
    { destruct (proj2 Inv t Ht) as (header & more & E & D & S & F).
      exists header, (more ++ [line])%list. rewrite E.
      split; [reflexivity | split; [exact D | split]].
      - rewrite <- E. now apply Subseq_snoc.
      - apply Forall_app. split; [exact F | now repeat constructor]. }
    unfold tyBodyLine.
    match goal with |- context [if ?b then _ else _] => destruct b end;
      split; cbn [typeDefs currentType typeContent].
    + apply Forall_app. split; [now apply contentInv_seen|].
      constructor; [|constructor].
      exists (typeContent st ++ [line])%list. split; [reflexivity|].
      now apply contentFrom_finalize.
    + discriminate.
    + now apply contentInv_seen.
    + intros t' Ht'. rewrite Ht in Ht'. now injection Ht' as <-.
Qed.

Lemma tyLoop_contentInv lines :
  forall seen st,
    contentInv seen st ->
    contentInv (seen ++ lines) (fold_left tyStep lines st).
Proof.
  induction lines as [|line rest IH]; intros seen st Inv.
  - cbn [fold_left]. now rewrite app_nil_r.
  - cbn [fold_left].
    replace (seen ++ line :: rest)%list with ((seen ++ [line]) ++ rest)%list
      by (now rewrite <- app_assoc).
    now apply IH, tyStep_contentInv.
Qed.

(** X12: The content of every extracted definition is made of lines of the
    input in their order, joined by line breaks: its first line is the
    header that gave the definition its name and kind, the others are
    lines below the header that are not empty.  Splitting the content
    at line breaks gives these lines back. *)
Theorem type_content_is_source_lines (s : string) :
  Forall (fun t =>
            exists header more,
              ty_content t = join nl (header :: more)
              /\ split newline (ty_content t) = header :: more
              /\ definitionHeader header t
              /\ Subseq (header :: more) (split newline s)
              /\ Forall (fun l => isEmpty (trim l) = false) more)
         (types (extract (JsString s))).
Proof.
  unfold extract. cbn [truthy typeofIsString negb orb].
  destruct (negb (negb (isEmpty s)) || false); [constructor|].
  unfold extractFromText. cbn [types]. unfold parseTypes.
  assert (Inv : contentInv ([] ++ split newline s)
                  (fold_left tyStep (split newline s) initialTypeState)).
  { apply tyLoop_contentInv. split; [constructor | discriminate]. }
  cbn [app] in Inv.
  eapply Forall_impl; [|exact (contentInv_pushCurrent _ _ Inv)].
  intros t (lines' & E & header & more & -> & D & S & F).
  exists header, more.
  split; [exact E | split; [|split; [exact D | split; [exact S | exact F]]]].
  rewrite E. apply split_join; [discriminate|].
  apply Forall_forall. intros l Hl.
  pose proof (LineFacts.split_pieces s) as P.
  rewrite Forall_forall in P. apply P.
  now apply (Subseq_In _ _ S).
Qed.

(* ================================================================= *)
(** ** Indentation and empty lines *)

(** X13: Indentation and trailing white space never matter to the operation
    pass: padding the lines of an input changes no operation. *)
Theorem operations_ignore_padding (typeName : string)
    (operationType : OperationType)
    (ls : list (string * string * string)) :
  Forall (fun l => let '(before, _, after) := l in
                   isPadding before = true /\ isPadding after = true) ls ->
  parseOperationsFromType (map padded ls) typeName operationType
  = parseOperationsFromType (map core ls) typeName operationType.
Proof.
  intros H. unfold parseOperationsFromType. f_equal.
  apply opLoop_sameView.
  induction H as [|[[b c] a] ls [Hb Ha] _ IH]; cbn [map]; constructor.
  - cbn [padded core]. now apply LineFacts.sameView_padding.
  - exact IH.
Qed.

Lemma operations_ignore_padding_witness :
  parseOperationsFromType
    [ "type Query {  "; String "009" "foo: Bar" ++ String "013" EmptyString;
      " }" ] "Query" query
  = [fooOperation].
Proof.
  pose proof (operations_ignore_padding "Query" query
                [ (EmptyString, "type Query {", "  ");
                  (String "009" EmptyString, "foo: Bar",
                   String "013" EmptyString);
                  (" ", "}", EmptyString) ]) as E.
  cbn [map padded core append] in E |- *. rewrite E.
  - vm_compute. reflexivity.
  - repeat constructor.
Defined.

Lemma tyLoop_nonBlank lines :
  forall st, fold_left tyStep lines st = fold_left tyStep (nonBlank lines) st.
Proof.
  induction lines as [|l lines IH]; intros st; [reflexivity|].
  unfold nonBlank. cbn [filter fold_left].
  destruct (isEmpty (trim l)) eqn:He; cbn [negb fold_left].
  - assert (E : tyStep st l = st) by (unfold tyStep; now rewrite He).
    rewrite E. apply IH.
  - apply IH.
Qed.

(** X14: Empty lines never matter to the type-definition pass: it returns
    the same definitions for an input and for the input without its
    empty lines.  In particular an empty line inside a definition is
    not part of its content. *)
Theorem types_ignore_empty_lines (lines : list string) :
  parseTypes lines = parseTypes (nonBlank lines).
Proof. unfold parseTypes. now rewrite tyLoop_nonBlank. Qed.

Example empty_line_dropped_from_content :
  map ty_content (parseTypes ["type Point {"; "  x: Int"; " "; "  y: Int"; "}"])
  = [unlines ["type Point {"; "  x: Int"; "  y: Int"; "}"]].
Proof. vm_compute. reflexivity. Qed.

(* ================================================================= *)
(** ** A definition written over several lines *)




(* ================================================================= *)
(** ** A root block without descriptions *)

Section PlainBlock.

Variable typeName : string.
Variable operationType : OperationType.

Lemma opStep_plain st line :
  inTypeBlock st = true -> braceCount st = 1%Z ->
  inDescription st = false -> currentDescription st = EmptyString ->
  isPlainLine typeName line ->
  let st' := fst (opStep typeName operationType st line) in
  snd (opStep typeName operationType st line) = Next
  /\ typeOps st' = (typeOps st ++ fieldOperations operationType [line])%list
  /\ inTypeBlock st' = true /\ braceCount st' = 1%Z
  /\ inDescription st' = false /\ currentDescription st' = EmptyString.
Proof.
  intros Hin Hb Hp Hcd (Hh & Ho & Hc & Hd). cbn zeta.
  unfold fieldOperations. cbn [flat_map]. rewrite app_nil_r.
  unfold opStep. rewrite Hh, Hin.
  destruct (isEmpty (trim line)) eqn:He.
  - apply JsFacts.isEmpty_true in He. rewrite He.
    replace (matchAt fieldPattern EmptyString) with (@None (string * captures))
      by reflexivity.
    unfold opEmptyLine. rewrite Hp.
    cbn [fst snd typeOps inTypeBlock braceCount inDescription
           currentDescription].
    rewrite app_nil_r. now repeat split.
  - rewrite Hd. cbn [andb].
    unfold countClose, countOpen. rewrite Ho, Hc, Hb.
    unfold opFinalize. rewrite Hp. cbn [andb].
    unfold opCloseBlock.
    change "}" with (char "}").
    rewrite (JsFacts.includes_char_trim "}") by reflexivity.
    change (char "}") with "}". rewrite Hc, andb_false_r. cbn [fst snd].
    unfold opFieldLine.
    cbn [braceCount currentDescription typeOps inTypeBlock inDescription
           negb andb Z.ltb Z.compare].
    rewrite Hcd.
    destruct (matchAt fieldPattern (trim line)) as [[rest m]|];
      cbn [isEmpty negb andb typeOps inTypeBlock braceCount inDescription
             currentDescription];
      rewrite ?app_nil_r; now repeat split.
Qed.

Lemma opLoop_plain (body : list string) :
  forall st,
    inTypeBlock st = true -> braceCount st = 1%Z ->
    inDescription st = false -> currentDescription st = EmptyString ->
    Forall (isPlainLine typeName) body ->
    let st' := opLoop typeName operationType body st in
    opStops typeName operationType body st = false
    /\ typeOps st' = (typeOps st ++ fieldOperations operationType body)%list
    /\ inTypeBlock st' = true /\ braceCount st' = 1%Z.
Proof.
  induction body as [|l body IH]; intros st Hin Hb Hp Hcd Hl; cbn zeta.
  - cbn [opLoop opStops fieldOperations flat_map]. rewrite app_nil_r.
    now repeat split.
  - inversion Hl as [|? ? Hl1 Hbody]; subst.
    destruct (opStep_plain st l Hin Hb Hp Hcd Hl1)
      as (N & E1 & E2 & E3 & E4 & E5).
    cbn [opLoop opStops].
    destruct (opStep typeName operationType st l) as [st1 flow].
    cbn [fst snd] in *. subst flow.
    destruct (IH st1 E2 E3 E4 E5 Hbody) as (S & F1 & F2 & F3).
    rewrite S, F1, F2, F3, E1, <- app_assoc.
    unfold fieldOperations. cbn [flat_map]. rewrite app_nil_r.
    now repeat split.
Qed.

(** The closing line adds no operation. *)
Lemma opStep_closing_ops st line :
  inTypeBlock st = true -> braceCount st = 1%Z ->
  isRootHeader typeName (trim line) = false ->
  includes "{" line = false -> includes "}" line = true ->
  typeOps (fst (opStep typeName operationType st line)) = typeOps st.
Proof.
  intros Hin Hb Hh Ho Hc.
  assert (He : isEmpty (trim line) = false).
  { assert (H : includes "}" (trim line) = true).
    { change "}" with (char "}").
      now rewrite (JsFacts.includes_char_trim "}") by reflexivity. }
    destruct (trim line); [discriminate | reflexivity]. }
  unfold opStep. rewrite He, Hh, Hin.
  unfold countClose, countOpen. rewrite Ho, Hc, Hb.
  cbn [Z.sub Z.add Z.opp Z.pos_sub Z.ltb Z.compare].
  rewrite andb_false_r, typeOps_opCloseBlock.
  unfold opFieldLine. rewrite braceCount_opFinalize.
  cbn [Z.ltb Z.compare andb]. apply typeOps_opFinalize.
Qed.

End PlainBlock.

(** X16: A root block without descriptions.  Let the input be: lines
    that do not pass the header test of the root block; then a line
    that passes it and holds an opening brace; then lines that do not
    pass it, hold no brace and are no description lines; then a line
    that does not pass it, holds a closing brace and holds no opening
    brace; then any lines.  The pass returns exactly one operation for
    each line of the third group on whose trimmed text the field
    pattern matches, in the order of the lines and without
    description; the lines before and after add nothing. *)
Theorem plain_block_operations (typeName : string)
    (operationType : OperationType)
    (before : list string) (header : string) (body : list string)
    (closing : string) (after : list string) :
  Forall (fun l => isRootHeader typeName (trim l) = false) before ->
  isRootHeader typeName (trim header) = true ->
  includes "{" header = true ->
  Forall (isPlainLine typeName) body ->
  isRootHeader typeName (trim closing) = false ->
  includes "{" closing = false -> includes "}" closing = true ->
  parseOperationsFromType
    (before ++ header :: body ++ closing :: after) typeName operationType
  = fieldOperations operationType body.
Proof.
  intros Hbefore Hheader Hopen Hbody Hclosing Hco Hcc.
  unfold parseOperationsFromType.
  rewrite opLoop_app.
  rewrite (opStops_outside typeName operationType before) by easy.
  destruct (opLoop_outside typeName operationType before initialOpState
              eq_refl Hbefore) as [Hops Hout].
  set (st0 := opLoop typeName operationType before initialOpState) in *.
  cbn [opLoop]. unfold opStep at 1.
  rewrite (isRootHeader_nonempty _ _ Hheader), Hheader.
  set (st1 := opHeaderLine st0 header).
  assert (B1 : braceCount st1 = 1%Z).
  { subst st1. cbn [opHeaderLine braceCount]. unfold countOpen.
    now rewrite Hopen. }
  rewrite opLoop_app.
  destruct (opLoop_plain typeName operationType body st1
              eq_refl B1 eq_refl eq_refl Hbody) as (S & E1 & E2 & E3).
  rewrite S. cbn [opLoop].
  pose proof (opStep_closing typeName operationType _ closing E2 E3
                Hclosing Hco Hcc) as Hbreak.
  pose proof (opStep_closing_ops typeName operationType _ closing E2 E3
                Hclosing Hco Hcc) as Hsame.
  destruct (opStep typeName operationType
              (opLoop typeName operationType body st1) closing)
    as [st' flow].
  cbn [fst snd] in *. subst flow.
  rewrite Hsame, E1. subst st1. cbn [opHeaderLine typeOps].
  now rewrite Hops.
Qed.

Lemma plain_block_operations_witness :
  map op_name
    (parseOperationsFromType
       [ "scalar Date"; "type Query {"; "  a: A"; "  not a field";
         "  b(x: X): B"; "}"; "type Other {"; "  c: C"; "}" ]
       "Query" query)
  = ["a"; "b"].
Proof.
  assert (B : Forall (isPlainLine "Query")
                ["  a: A"; "  not a field"; "  b(x: X): B"])
    by (repeat constructor).
  pose proof (plain_block_operations "Query" query ["scalar Date"]
                "type Query {" ["  a: A"; "  not a field"; "  b(x: X): B"]
                "}" ["type Other {"; "  c: C"; "}"]
                ltac:(repeat constructor) eq_refl eq_refl B
                eq_refl eq_refl eq_refl) as E.
  cbn [app] in E. rewrite E. vm_compute. reflexivity.
Defined.
